(** * The TU-datasets training driver of the Structure-Aware Transformer

    A shallow embedding of [experiments/train_TUs.py]: the command-line
    loader [load_args], the trainer [train_epoch], the evaluator
    [eval_epoch], the run controller [main] and the ten-run block under
    [if __name__ == "__main__"].

    Conventions of the embedding.
    - Python [int] is [Z].  Python [float] is idealised as an exact
      rational ([Q]); rounding is not modelled.  The two non-finite values
      the script meets, [float('inf')] and numpy's [nan], are constructors
      of [float].
    - Every function runs in the monad [M]: it threads a [world] (the
      chronological trace of calls made to collaborators, the directories
      that exist, the number of clock reads) and either returns a value or
      raises a Python exception.  The world survives a raise, so what was
      done before a failure stays observable.
    - Everything the script imports (torch, torch_geometric, numpy, pandas,
      the [sat] package, the operating system) is a field of the record
      [framework]; the theorems quantify over it.
    - The [criterion] argument is folded into the framework's training
      step; [eval_epoch] never reads it.  [print] and the tqdm progress
      bar are not modelled. *)

From Stdlib Require Import ZArith QArith Bool String List DecimalString Lia.
Import ListNotations.

Local Open Scope string_scope.
Local Open Scope Z_scope.

(** ** Python values *)

Inductive exn : Set :=
| ZeroDivisionError
| UnboundLocalError
| RuntimeError
| AssertionError.

Inductive result (A : Type) : Type :=
| Return (a : A)
| Raise (e : exn).
Arguments Return {A} a.
Arguments Raise {A} e.

(** A Python float: a rational, [float('inf')], or [nan]. *)
Inductive float : Set :=
| Finite (q : Q)
| Inf
| NaN.

(** [a < b] on floats that are finite. *)
Definition Qltb (a b : Q) : bool :=
  match (a ?= b)%Q with Lt => true | _ => false end.

(** [str(n)] for an [int]. *)
Definition str_int (n : Z) : string := NilZero.string_of_int (Z.to_int n).

(** [range(n)]. *)
Definition range (n : Z) : list Z := map Z.of_nat (seq 0 (Z.to_nat n)).

(** ** The argparse namespace *)

(** What [parser.parse_args()] returns: one attribute per option. *)
Record options : Type := {
  seed : Z;
  dataset : string;
  num_heads : Z;
  num_layers : Z;
  dim_hidden : Z;
  dropout : Q;
  epochs : Z;
  lr : Q;
  weight_decay : Q;
  batch_size : Z;
  abs_pe : option string;
  abs_pe_dim : Z;
  outdir : string;
  warmup : Z;
  layer_norm : bool;
  use_edge_attr : bool;
  edge_dim : Z;
  gnn_type : string;
  k_hop : Z;
  global_pool : string;
  se : string;
  aggr : string;
  not_extract_node_feature : bool;
  total_params : Z;
  memory_usage : Z;
  model_dim : Z;
  device_id : Z
}.

(** [args.outdir = p]. *)
Definition set_outdir (p : string) (o : options) : options :=
  {| seed := seed o; dataset := dataset o; num_heads := num_heads o;
     num_layers := num_layers o; dim_hidden := dim_hidden o;
     dropout := dropout o; epochs := epochs o; lr := lr o;
     weight_decay := weight_decay o; batch_size := batch_size o;
     abs_pe := abs_pe o; abs_pe_dim := abs_pe_dim o; outdir := p;
     warmup := warmup o; layer_norm := layer_norm o;
     use_edge_attr := use_edge_attr o; edge_dim := edge_dim o;
     gnn_type := gnn_type o; k_hop := k_hop o; global_pool := global_pool o;
     se := se o; aggr := aggr o;
     not_extract_node_feature := not_extract_node_feature o;
     total_params := total_params o; memory_usage := memory_usage o;
     model_dim := model_dim o; device_id := device_id o |}.

(** [args.total_params = n]. *)
Definition set_total_params (n : Z) (o : options) : options :=
  {| seed := seed o; dataset := dataset o; num_heads := num_heads o;
     num_layers := num_layers o; dim_hidden := dim_hidden o;
     dropout := dropout o; epochs := epochs o; lr := lr o;
     weight_decay := weight_decay o; batch_size := batch_size o;
     abs_pe := abs_pe o; abs_pe_dim := abs_pe_dim o; outdir := outdir o;
     warmup := warmup o; layer_norm := layer_norm o;
     use_edge_attr := use_edge_attr o; edge_dim := edge_dim o;
     gnn_type := gnn_type o; k_hop := k_hop o; global_pool := global_pool o;
     se := se o; aggr := aggr o;
     not_extract_node_feature := not_extract_node_feature o;
     total_params := n; memory_usage := memory_usage o;
     model_dim := model_dim o; device_id := device_id o |}.

(** [args.memory_usage = n]. *)
Definition set_memory_usage (n : Z) (o : options) : options :=
  {| seed := seed o; dataset := dataset o; num_heads := num_heads o;
     num_layers := num_layers o; dim_hidden := dim_hidden o;
     dropout := dropout o; epochs := epochs o; lr := lr o;
     weight_decay := weight_decay o; batch_size := batch_size o;
     abs_pe := abs_pe o; abs_pe_dim := abs_pe_dim o; outdir := outdir o;
     warmup := warmup o; layer_norm := layer_norm o;
     use_edge_attr := use_edge_attr o; edge_dim := edge_dim o;
     gnn_type := gnn_type o; k_hop := k_hop o; global_pool := global_pool o;
     se := se o; aggr := aggr o;
     not_extract_node_feature := not_extract_node_feature o;
     total_params := total_params o; memory_usage := n;
     model_dim := model_dim o; device_id := device_id o |}.

(** The namespace once [load_args] has added its three derived
    attributes. *)
Record namespace : Type := {
  opts : options;
  use_cuda : bool;
  batch_norm : bool;
  save_logs : bool
}.

Definition update_opts (f : options -> options) (a : namespace) : namespace :=
  {| opts := f (opts a); use_cuda := use_cuda a;
     batch_norm := batch_norm a; save_logs := save_logs a |}.

(** ** The world and the monad *)

(** The per-epoch log: [logs = defaultdict(list)] with the three keys the
    loop appends to. *)
Record logbook : Type := {
  log_train_loss : list Q;
  log_val_score : list Q;
  log_test_score : list Q
}.

(** The [results] dict written to [results.csv]. *)
Record summary : Type := {
  res_test_score : Q;
  res_test_loss : Q;
  res_val_score : Q;
  res_val_loss : float;
  res_best_epoch : Z;
  res_total_time : Q
}.

(** Calls to collaborators, in the order they are made. *)
Inductive event : Type :=
| EvSeed (s : Z)                                   (* seed_everything(s) *)
| EvMakedirs (path : string)                       (* os.makedirs(path) *)
| EvCuda                                           (* batch.cuda() *)
| EvModelCuda                                      (* model.cuda() *)
| EvOptimStep (rate : Q)                           (* optimizer.step() at this lr *)
| EvLoadStateDict                                  (* model.load_state_dict(..) *)
| EvLogsCsv (path : string) (l : logbook)          (* logs.to_csv(path) *)
| EvResultsCsv (path : string) (r : summary)       (* results.to_csv(path, ..) *)
| EvTorchSave (path : string)                      (* torch.save({..}, path) *)
| EvResultsToFile (a : namespace) (stats : list float). (* results_to_file(a, ..) *)

Record world : Type := {
  trace : list event;
  dirs : list string;
  ticks : nat
}.

Definition M (A : Type) : Type := world -> result A * world.

Definition ret {A} (a : A) : M A := fun w => (Return a, w).

Definition bind {A B} (m : M A) (k : A -> M B) : M B :=
  fun w =>
    match m w with
    | (Return a, w') => k a w'
    | (Raise e, w') => (Raise e, w')
    end.

Definition raise {A} (e : exn) : M A := fun w => (Raise e, w).

(** A collaborator's answer. *)
Definition lift {A} (r : result A) : M A := fun w => (r, w).

Definition emit (ev : event) : M unit :=
  fun w => (Return tt,
            {| trace := trace w ++ [ev]; dirs := dirs w; ticks := ticks w |}).

Declare Scope py_scope.
Delimit Scope py_scope with py.
Notation "x <- m ;; k" := (bind m (fun x => k))
  (at level 61, m at next level, right associativity) : py_scope.
Notation "' pat <- m ;; k" := (bind m (fun x => match x with pat => k end))
  (at level 61, pat pattern, m at next level, right associativity) : py_scope.
Notation "m ;;; k" := (bind m (fun _ => k))
  (at level 61, right associativity) : py_scope.
Local Open Scope py_scope.

(** [a / n] with [n] an [int]: true division. *)
Definition py_div (a : Q) (n : Z) : M Q :=
  if n =? 0 then raise ZeroDivisionError else ret (a / inject_Z n)%Q.

(** ** Tensors *)

(** [row.max()[1]]: the index of the first maximal entry. *)
Fixpoint argmax_from (best_i : Z) (best : Q) (i : Z) (row : list Q) : Z :=
  match row with
  | [] => best_i
  | x :: rest =>
      if Qltb best x then argmax_from i x (i + 1) rest
      else argmax_from best_i best (i + 1) rest
  end.

Definition argmax (row : list Q) : result Z :=
  match row with
  | [] => Raise RuntimeError           (* reduction over an empty dimension *)
  | x :: rest => Return (argmax_from 0 x 1 rest)
  end.

(** [pred.max(dim=1)[1]]. *)
Fixpoint max_dim1 (out : list (list Q)) : result (list Z) :=
  match out with
  | [] => Return []
  | row :: rest =>
      match argmax row, max_dim1 rest with
      | Return i, Return idx => Return (i :: idx)
      | Raise e, _ => Raise e
      | _, Raise e => Raise e
      end
  end.

Definition count_eq (p y : list Z) : Z :=
  Z.of_nat (length (filter (fun py => fst py =? snd py) (combine p y))).

(** [pred.eq(y).sum().item()] on one-dimensional tensors, with torch's
    broadcasting of a length-one operand. *)
Definition eq_sum (p y : list Z) : result Z :=
  if (length p =? length y)%nat then Return (count_eq p y)
  else match p, y with
       | [p0], _ => Return (count_eq (repeat p0 (length y)) y)
       | _, [y0] => Return (count_eq p (repeat y0 (length p)))
       | _, _ => Raise RuntimeError
       end.

(** ** Collaborators *)

Set Implicit Arguments.

(** A [DataLoader]: [len(loader)] is [length (batches l)] and
    [len(loader.dataset)] is [dataset_len l]. *)
Record loader (batch : Type) : Type := {
  batches : list batch;
  dataset_len : Z
}.

(** What the script imports.  [state_dict] is the model's parameters,
    [optim] the optimizer's internal state, [batch] a mini-batch of
    graphs. *)
Record framework (state_dict optim batch : Type) : Type := {
  (* torch.cuda.is_available() *)
  cuda_is_available : bool;
  (* os.makedirs(path) on the directories that exist: [None] when it raises *)
  makedirs : string -> list string -> option (list string);
  (* the n-th read of time.time() / timeit.default_timer() *)
  clock : nat -> Q;
  (* TUDataset, TUUtil.preprocess, get_idx_split, GraphDataset, the
     positional encoder and DataLoader, for each of the three splits *)
  train_loader : namespace -> loader batch;
  val_loader : namespace -> loader batch;
  test_loader : namespace -> loader batch;
  (* batch.y *)
  labels : batch -> list Z;
  (* batch.cuda() *)
  batch_cuda : batch -> result batch;
  (* the random sign flip of the Laplacian encoding *)
  sign_flip : batch -> batch;
  (* GraphTransformer(..) and count_parameters *)
  GraphTransformer : namespace -> state_dict;
  count_parameters : state_dict -> Z;
  (* optim.AdamW(model.parameters(), lr, weight_decay) *)
  AdamW : state_dict -> Q -> Q -> optim;
  (* model(batch) in evaluation mode: one row of class scores per graph *)
  forward : state_dict -> batch -> list (list Q);
  (* zero_grad, forward, criterion, backward, step at the given rate:
     the new parameters, the new optimizer state and loss.item() *)
  optim_step : state_dict -> optim -> Q -> batch -> state_dict * optim * Q;
  (* CosineAnnealingLR(optimizer, T_max).step(): the next rate from T_max,
     the base rate, the scheduler's epoch counter and the current rate *)
  cosine_step : Z -> Q -> Z -> Q -> Q;
  (* torch.cat(tensors) *)
  torch_cat : list (list Z) -> result (list Z);
  (* print_gpu_utilization(device_id) *)
  print_gpu_utilization : Z -> Z;
  (* numpy.mean and numpy.std *)
  np_mean : list float -> float;
  np_std : list float -> float
}.

(** The model with its optimizer: [rate] is [param_group["lr"]]. *)
Record trainer (state_dict optim : Type) : Type := {
  params : state_dict;
  rate : Q;
  moments : optim
}.

(** The best-checkpoint record of [main]: [best_weights] is [None] while
    the Python name is unbound. *)
Record checkpoint (state_dict : Type) : Type := {
  best_val_score : Q;
  best_val_loss : float;
  best_epoch : Z;
  best_weights : option state_dict
}.

(** The locals of [main] that live across epochs. *)
Record run_state (state_dict optim batch : Type) : Type := {
  args : namespace;
  net : trainer state_dict optim;
  last_epoch : Z;                    (* the cosine scheduler's counter *)
  test_ld : loader batch;
  t0 : Q;
  start_time : Q;
  best : checkpoint state_dict;
  logs : logbook;
  per_epoch_time : list Q
}.

Unset Implicit Arguments.

(** The five lists the ten-run block fills. *)
Record tally : Type := {
  test_scores : list Q;
  test_losses : list Q;
  vals : list float;
  total_time_list : list Q;
  avg_time_list : list float
}.

Definition empty_tally : tally :=
  {| test_scores := []; test_losses := []; vals := [];
     total_time_list := []; avg_time_list := [] |}.

(** The tuple [main] returns. *)
Definition outcome : Type := (Q * Q * float * Q * float)%type.

Definition out_test_score (r : outcome) : Q := let '(x, _, _, _, _) := r in x.
Definition out_test_loss (r : outcome) : Q := let '(_, x, _, _, _) := r in x.
Definition out_val (r : outcome) : float := let '(_, _, x, _, _) := r in x.
Definition out_total_time (r : outcome) : Q := let '(_, _, _, x, _) := r in x.
Definition out_avg_time (r : outcome) : float := let '(_, _, _, _, x) := r in x.

(** Lines 320-324 of [main]: the conditional overwrite of the
    best-checkpoint record. *)
Definition track_best {state_dict : Type} (b : checkpoint state_dict)
    (epoch : Z) (val_score val_loss : Q) (weights : state_dict)
  : checkpoint state_dict :=
  if Qltb (best_val_score b) val_score then
    {| best_val_score := val_score;
       best_val_loss := Finite val_loss;
       best_epoch := epoch;
       best_weights := Some weights |}
  else b.

(** [warmup_lr_scheduler], the closure of [main] over [lr_steps]. *)
Definition warmup_lr_scheduler (lr_steps : Q) (s : Z) : Q :=
  (inject_Z s * lr_steps)%Q.

Definition set_rate {state_dict optim : Type} (r : Q)
    (t : trainer state_dict optim) : trainer state_dict optim :=
  {| params := params t; rate := r; moments := moments t |}.

Section Driver.

Context {state_dict optim batch : Type}.

(** [str(x)] for a float, as ['{}'.format] prints it. *)
Variable float_repr : Q -> string.

Variable E : framework state_dict optim batch.

(** [time.time()] and [timer()]: the next value of the clock. *)
Definition timer : M Q :=
  fun w => (Return (clock E (ticks w)),
            {| trace := trace w; dirs := dirs w; ticks := S (ticks w) |}).

(** [if not os.path.exists(p): try: os.makedirs(p) except Exception: pass]. *)
Definition ensure_dir (p : string) : M unit :=
  fun w =>
    if existsb (String.eqb p) (dirs w) then (Return tt, w)
    else
      let tr := (trace w ++ [EvMakedirs p])%list in
      match makedirs E p (dirs w) with
      | Some ds => (Return tt, {| trace := tr; dirs := ds; ticks := ticks w |})
      | None => (Return tt, {| trace := tr; dirs := dirs w; ticks := ticks w |})
      end.

(** The last path component: the hyperparameters in their fixed order. *)
Definition hyper_dir (o : options) (bn : string) : string :=
  let tail :=
    gnn_type o ++ "_" ++ str_int (k_hop o) ++ "_" ++ float_repr (dropout o)
    ++ "_" ++ float_repr (lr o) ++ "_" ++ float_repr (weight_decay o)
    ++ "_" ++ str_int (num_layers o) ++ "_" ++ str_int (num_heads o)
    ++ "_" ++ str_int (dim_hidden o) ++ "_" ++ bn in
  if String.eqb (se o) "khopgnn" then se o ++ "_" ++ tail else tail.

Definition load_args (parsed : options) : M namespace :=
  let use_cuda := cuda_is_available E in
  let batch_norm := negb (layer_norm parsed) in
  if String.eqb (outdir parsed) "" then
    ret {| opts := parsed; use_cuda := use_cuda; batch_norm := batch_norm;
           save_logs := false |}
  else
    let outdir := outdir parsed in
    ensure_dir outdir ;;;
    let outdir := outdir ++ "/" ++ dataset parsed in
    ensure_dir outdir ;;;
    let outdir := outdir ++ "/seed" ++ str_int (seed parsed) in
    ensure_dir outdir ;;;
    outdir <- (if use_edge_attr parsed then
                 let outdir := outdir ++ "/edge_attr" in
                 ensure_dir outdir ;;; ret outdir
               else ret outdir) ;;
    let pedir := match abs_pe parsed with
                 | None => "None"
                 | Some pe => pe ++ "_" ++ str_int (abs_pe_dim parsed)
                 end in
    let outdir := outdir ++ "/" ++ pedir in
    ensure_dir outdir ;;;
    let bn := if batch_norm then "BN" else "LN" in
    let outdir := outdir ++ "/" ++ hyper_dir parsed bn in
    ensure_dir outdir ;;;
    ret {| opts := set_outdir outdir parsed; use_cuda := use_cuda;
           batch_norm := batch_norm; save_logs := true |}.

(** [batch.cuda()]. *)
Definition cuda (b : batch) : M batch :=
  emit EvCuda ;;; lift (batch_cuda E b).

(** The batch loop of [train_epoch]: [i] is the index [enumerate] gives,
    [n_batches] is [len(loader)]. *)
Fixpoint train_loop (a : namespace) (lr_scheduler : Z -> Q) (epoch : Z)
    (use_cuda : bool) (n_batches : Z) (bs : list batch) (i : Z)
    (t : trainer state_dict optim) (running_loss : Q)
  : M (trainer state_dict optim * Q) :=
  match bs with
  | [] => ret (t, running_loss)
  | data :: rest =>
      let size := Z.of_nat (length (labels E data)) in
      let t := if epoch <? warmup (opts a) then
                 let iteration := epoch * n_batches + i in
                 set_rate (lr_scheduler iteration) t
               else t in
      let data := match abs_pe (opts a) with
                  | Some pe => if String.eqb pe "lap" then sign_flip E data
                               else data
                  | None => data
                  end in
      data <- (if use_cuda then cuda data else ret data) ;;
      let '(p, m, loss) := optim_step E (params t) (moments t) (rate t) data in
      emit (EvOptimStep (rate t)) ;;;
      train_loop a lr_scheduler epoch use_cuda n_batches rest (i + 1)
        {| params := p; rate := rate t; moments := m |}
        (running_loss + loss * inject_Z size)%Q
  end.

Definition train_epoch (a : namespace) (t : trainer state_dict optim)
    (ld : loader batch) (lr_scheduler : Z -> Q) (epoch : Z) (use_cuda : bool)
  : M (Q * trainer state_dict optim) :=
  let running_loss := 0%Q in
  tic <- timer ;;
  '(t, running_loss) <-
     train_loop a lr_scheduler epoch use_cuda
       (Z.of_nat (length (batches ld))) (batches ld) 0 t running_loss ;;
  toc <- timer ;;
  let n_sample := dataset_len ld in
  epoch_loss <- py_div running_loss n_sample ;;
  ret (epoch_loss, t).

(** The batch loop of [eval_epoch]. *)
Fixpoint eval_loop (model : state_dict) (bs : list batch) (correct : Z)
  : M Z :=
  match bs with
  | [] => ret correct
  | b :: rest =>
      b <- cuda b ;;
      pred <- lift (max_dim1 (forward E model b)) ;;
      hits <- lift (eq_sum pred (labels E b)) ;;
      eval_loop model rest (correct + hits)
  end.

Definition eval_epoch (model : state_dict) (ld : loader batch)
    (use_cuda : bool) (split : string) : M (Q * Q) :=
  let running_loss := 0%Q in
  let y_pred : list (list Z) := [] in
  let y_true : list (list Z) := [] in
  tic <- timer ;;
  correct <- eval_loop model (batches ld) 0 ;;
  toc <- timer ;;
  y_pred <- lift (torch_cat E y_pred) ;;
  y_true <- lift (torch_cat E y_true) ;;
  let n_sample := dataset_len ld in
  epoch_loss <- py_div running_loss n_sample ;;
  score <- py_div (inject_Z correct) (dataset_len ld) ;;
  ret (score, epoch_loss).

(** One pass of the epoch loop of [main] (lines 304-325). *)
Definition epoch_body (train_ld val_ld : loader batch) (lr_steps : Q)
    (epoch : Z) (st : run_state state_dict optim batch)
  : M (run_state state_dict optim batch) :=
  let a := args st in
  start <- timer ;;
  '(train_loss, t) <-
     train_epoch a (net st) train_ld (warmup_lr_scheduler lr_steps) epoch
       (use_cuda a) ;;
  '(val_score, val_loss) <-
     eval_epoch (params t) val_ld (use_cuda a) "Val" ;;
  '(test_score, test_loss) <-
     eval_epoch (params t) (test_ld st) (use_cuda a) "Test" ;;
  let a :=
    if epoch =? 1 then
      let mem := print_gpu_utilization E (device_id (opts a)) in
      update_opts (set_memory_usage mem) a
    else a in
  let '(t, k) :=
    if epoch >=? warmup (opts a) then
      let k := last_epoch st + 1 in
      (set_rate (cosine_step E (epochs (opts a) - warmup (opts a))
                   (lr (opts a)) k (rate t)) t, k)
    else (t, last_epoch st) in
  let l :=
    {| log_train_loss := log_train_loss (logs st) ++ [train_loss];
       log_val_score := log_val_score (logs st) ++ [val_score];
       log_test_score := log_test_score (logs st) ++ [test_score] |} in
  let b := track_best (best st) epoch val_score val_loss (params t) in
  stop <- timer ;;
  ret {| args := a; net := t; last_epoch := k; test_ld := test_ld st;
         t0 := t0 st; start_time := start_time st; best := b; logs := l;
         per_epoch_time := per_epoch_time st ++ [(stop - start)%Q] |}.

(** [for epoch in range(args.epochs)]. *)
Fixpoint epoch_loop (train_ld val_ld : loader batch) (lr_steps : Q)
    (es : list Z) (st : run_state state_dict optim batch)
  : M (run_state state_dict optim batch) :=
  match es with
  | [] => ret st
  | epoch :: rest =>
      st <- epoch_body train_ld val_ld lr_steps epoch st ;;
      epoch_loop train_ld val_ld lr_steps rest st
  end.

(** [main] up to the end of the epoch loop (lines 204-325).  Line 297
    binds [best_model], which nothing reads; [best_weights] is not bound
    before the loop. *)
Definition main_loop (parsed : options)
  : M (run_state state_dict optim batch) :=
  a <- load_args parsed ;;
  emit (EvSeed (seed (opts a))) ;;;
  let train_ld := train_loader E a in
  let val_ld := val_loader E a in
  let model := GraphTransformer E a in
  (if use_cuda a then emit EvModelCuda else ret tt) ;;;
  let a' := update_opts (set_total_params (count_parameters E model)) a in
  let optimizer :=
    {| params := model; rate := lr (opts a');
       moments := AdamW E model (lr (opts a')) (weight_decay (opts a')) |} in
  lr_steps <-
    py_div (lr (opts a'))
      (warmup (opts a') * Z.of_nat (length (batches train_ld))) ;;
  let test_ld := test_loader E a in
  t0 <- timer ;;
  start_time <- timer ;;
  epoch_loop train_ld val_ld lr_steps (range (epochs (opts a')))
    {| args := a'; net := optimizer; last_epoch := 0; test_ld := test_ld;
       t0 := t0; start_time := start_time;
       best := {| best_val_score := 0; best_val_loss := Inf;
                  best_epoch := 0; best_weights := None |};
       logs := {| log_train_loss := []; log_val_score := [];
                  log_test_score := [] |};
       per_epoch_time := [] |}.

(** The persistence block of [main] (lines 339-356). *)
Definition persist (st : run_state state_dict optim batch)
    (test_score test_loss total_time : Q) : M unit :=
  if save_logs (args st) then
    let dir := outdir (opts (args st)) in
    emit (EvLogsCsv (dir ++ "/logs.csv") (logs st)) ;;;
    emit (EvResultsCsv (dir ++ "/results.csv")
            {| res_test_score := test_score;
               res_test_loss := test_loss;
               res_val_score := best_val_score (best st);
               res_val_loss := best_val_loss (best st);
               res_best_epoch := best_epoch (best st);
               res_total_time := total_time |}) ;;;
    emit (EvTorchSave (dir ++ "/model.pth"))
  else ret tt.

(** [main] after the epoch loop (lines 327-357). *)
Definition main_finish (st : run_state state_dict optim batch)
  : M outcome :=
  now <- timer ;;
  let total_time := (now - start_time st)%Q in
  now <- timer ;;
  let total_time_taken := (now - t0 st)%Q in
  let avg_time_epoch := np_mean E (map Finite (per_epoch_time st)) in
  weights <- match best_weights (best st) with
             | Some w => ret w
             | None => raise UnboundLocalError
             end ;;
  emit EvLoadStateDict ;;;
  '(test_score, test_loss) <-
     eval_epoch weights (test_ld st) (use_cuda (args st)) "Test" ;;
  persist st test_score test_loss total_time ;;;
  ret (test_score, test_loss, best_val_loss (best st), total_time_taken,
       avg_time_epoch).

Definition main (parsed : options) : M outcome :=
  st <- main_loop parsed ;;
  main_finish st.

(** [for run_id in range(10)]: one call of [main] and five appends. *)
Fixpoint runs (parsed : options) (ids : list Z) (acc : tally) : M tally :=
  match ids with
  | [] => ret acc
  | run_id :: rest =>
      '(test_score, test_loss, val, total_time, avg_time) <- main parsed ;;
      runs parsed rest
        {| test_scores := test_scores acc ++ [test_score];
           test_losses := test_losses acc ++ [test_loss];
           vals := vals acc ++ [val];
           total_time_list := total_time_list acc ++ [total_time];
           avg_time_list := avg_time_list acc ++ [avg_time] |}
  end.

(** The eight statistics handed to [results_to_file]. *)
Definition statistics (acc : tally) : list float :=
  let ts := map Finite (test_scores acc) in
  let tl := map Finite (test_losses acc) in
  let tt := map Finite (total_time_list acc) in
  [ np_mean E ts; np_std E ts; np_mean E tl; np_std E tl;
    np_mean E tt; np_std E tt;
    np_mean E (avg_time_list acc); np_std E (avg_time_list acc) ].

(** The block under [if __name__ == "__main__"]. *)
Definition script (parsed : options) : M unit :=
  acc <- runs parsed (range 10) empty_tally ;;
  a <- load_args parsed ;;
  emit (EvResultsToFile a (statistics acc)).

End Driver.

(** ** Observations on a trace *)

Definition is_seed (ev : event) : bool :=
  match ev with EvSeed _ => true | _ => false end.

Definition is_cuda (ev : event) : bool :=
  match ev with EvCuda => true | _ => false end.

(** The three files of the results persister: the per-epoch log, the
    summary metrics and the checkpoint. *)
Definition is_artifact (ev : event) : bool :=
  match ev with
  | EvLogsCsv _ _ | EvResultsCsv _ _ | EvTorchSave _ => true
  | _ => false
  end.

Definition is_summary (ev : event) : bool :=
  match ev with EvResultsToFile _ _ => true | _ => false end.

(** The rates of the optimizer steps, in order. *)
Definition step_rates (tr : list event) : list Q :=
  flat_map (fun ev => match ev with EvOptimStep r => [r] | _ => [] end) tr.

(** How many events satisfying [p] the world has seen. *)
Definition count (p : event -> bool) (w : world) : nat :=
  length (filter p (trace w)).

(** [p] ignores what training and evaluation do inside one run. *)
Definition inner (p : event -> bool) : Prop :=
  p EvCuda = false /\ p EvModelCuda = false /\ p EvLoadStateDict = false /\
  (forall r, p (EvOptimStep r) = false) /\
  (forall q, p (EvMakedirs q) = false).

(** What the loop keeps true of the record and the logged scores. *)
Definition tracked {state_dict optim batch : Type}
    (st : run_state state_dict optim batch) : Prop :=
  (0 <= best_val_score (best st))%Q /\
  (best_weights (best st) = None ->
   best_val_score (best st) = 0%Q /\
   Forall (fun v => v <= 0)%Q (log_val_score (logs st))) /\
  (best_weights (best st) <> None ->
   Exists (fun v => 0 < v)%Q (log_val_score (logs st))).

(** [m] adds no event satisfying [p], whatever its outcome. *)
Definition silent {A} (p : event -> bool) (m : M A) : Prop :=
  forall w, filter p (trace (snd (m w))) = filter p (trace w).

(** [m] always returns, with a value satisfying [P]. *)
Definition yields {A} (m : M A) (P : A -> Prop) : Prop :=
  forall w, exists a w', m w = (Return a, w') /\ P a.

(** [m] never returns a value. *)
Definition fails {A} (m : M A) : Prop :=
  forall w a, fst (m w) <> Return a.

(** The output path written by the spec's words: the root, the dataset,
    the seed, the edge-attribute marker, the positional encoding and the
    hyperparameters, in this order. *)
Definition derived_outdir (float_repr : Q -> string) (o : options) : string :=
  outdir o ++ "/" ++ dataset o ++ "/seed" ++ str_int (seed o)
  ++ (if use_edge_attr o then "/edge_attr" else "")
  ++ "/" ++ match abs_pe o with
            | None => "None"
            | Some pe => pe ++ "_" ++ str_int (abs_pe_dim o)
            end
  ++ "/" ++ hyper_dir float_repr o (if layer_norm o then "LN" else "BN").

(** The namespace [load_args] returns, as a function of what was parsed. *)
Definition loaded {state_dict optim batch : Type} (float_repr : Q -> string)
    (E : framework state_dict optim batch) (parsed : options) : namespace :=
  {| opts := if String.eqb (outdir parsed) "" then parsed
             else set_outdir (derived_outdir float_repr parsed) parsed;
     use_cuda := cuda_is_available E;
     batch_norm := negb (layer_norm parsed);
     save_logs := negb (String.eqb (outdir parsed) "") |}.

(** The exact-match count of one batch. *)
Definition batch_hits {state_dict optim batch : Type}
    (E : framework state_dict optim batch) (model : state_dict) (b : batch)
  : result Z :=
  match batch_cuda E b with
  | Raise e => Raise e
  | Return b' =>
      match max_dim1 (forward E model b') with
      | Raise e => Raise e
      | Return pred => eq_sum pred (labels E b')
      end
  end.

(** The sentinel [main] starts from. *)
Definition sentinel {state_dict : Type} : checkpoint state_dict :=
  {| best_val_score := 0; best_val_loss := Inf; best_epoch := 0;
     best_weights := None |}.

Definition empty_logs : logbook :=
  {| log_train_loss := []; log_val_score := []; log_test_score := [] |}.

(** ** A small framework for concrete runs

    Parameters are a step counter, a batch is the list of its graphs, each
    a label with the class scores the model gives it.  [cat_empty] is what
    [torch.cat] answers on the empty list. *)
Module Toy.

Definition graph : Type := Z * list Q.
Definition batch : Type := list graph.

Definition mean (l : list float) : float :=
  let fix total (l : list float) : option Q :=
    match l with
    | [] => Some 0%Q
    | Finite q :: r =>
        match total r with Some s => Some (q + s)%Q | None => None end
    | _ :: _ => None
    end in
  match l, total l with
  | [], _ => NaN
  | _, Some s => Finite (Qred (s / inject_Z (Z.of_nat (length l))))
  | _, None => NaN
  end.

(** The standard deviation where it is rational: zero on a constant
    list; [nan] otherwise. *)
Definition std (l : list float) : float :=
  match l with
  | Finite q :: r =>
      if forallb (fun x => match x with
                           | Finite q' => Qeq_bool q q'
                           | _ => false
                           end) r
      then Finite 0 else NaN
  | _ => NaN
  end.

Definition fw (cat_empty : result (list Z)) (gpu : bool)
    (train val test : loader batch) : framework Z unit batch :=
  {| cuda_is_available := gpu;
     makedirs := fun p ds => Some (p :: ds);
     clock := fun n => inject_Z (Z.of_nat n);
     train_loader := fun _ => train;
     val_loader := fun _ => val;
     test_loader := fun _ => test;
     labels := map fst;
     batch_cuda := fun b => if gpu then Return b else Raise AssertionError;
     sign_flip := fun b => b;
     GraphTransformer := fun _ => 0;
     count_parameters := fun _ => 1;
     AdamW := fun _ _ _ => tt;
     forward := fun _ b => map snd b;
     optim_step := fun p _ _ _ => (p + 1, tt, 1%Q);
     cosine_step := fun _ _ _ r => r;
     torch_cat := fun ts => match ts with
                            | [] => cat_empty
                            | _ => Return (concat ts)
                            end;
     print_gpu_utilization := fun _ => 0;
     np_mean := mean;
     np_std := std |}.

(** Three graphs in one batch: the first two classified correctly. *)
Definition three : loader batch :=
  {| batches := [[(0, [2#1; 1#1]); (1, [0#1; 5#1]); (1, [3#1; 1#1])]];
     dataset_len := 3 |}.

(** Two batches of one graph each. *)
Definition two : loader batch :=
  {| batches := [[(0, [1#1; 0#1])]; [(1, [1#1; 0#1])]]; dataset_len := 2 |}.

(** One graph, classified wrongly. *)
Definition missed : loader batch :=
  {| batches := [[(1, [2#1; 1#1])]]; dataset_len := 1 |}.

(** A model with its optimizer before the first step. *)
Definition start (r : Q) : trainer Z unit :=
  {| params := 0; rate := r; moments := tt |}.

(** [torch.cat] as PyTorch has it: the empty list is an error. *)
Definition pytorch : framework Z unit batch :=
  fw (Raise RuntimeError) true two three three.

(** The same with a [torch.cat] that accepts the empty list. *)
Definition lenient : framework Z unit batch :=
  fw (Return []) true two three three.

(** A lenient framework whose validation split scores zero. *)
Definition lenient_missed : framework Z unit batch :=
  fw (Return []) true two missed three.

Definition repr (q : Q) : string :=
  str_int (Qnum q) ++ ":" ++ str_int (Zpos (Qden q)).

(** The defaults of the parser, with the given epochs, rate and output
    directory. *)
Definition cmd (n : Z) (r : Q) (out : string) : options :=
  {| seed := 0; dataset := "MUTAG"; num_heads := 8; num_layers := 3;
     dim_hidden := 128; dropout := 1 # 10; epochs := n; lr := r;
     weight_decay := 1 # 10000; batch_size := 32; abs_pe := None;
     abs_pe_dim := 20; outdir := out; warmup := 10; layer_norm := false;
     use_edge_attr := false; edge_dim := 128; gnn_type := "graph";
     k_hop := 2; global_pool := "mean"; se := "gnn"; aggr := "add";
     not_extract_node_feature := false; total_params := 0;
     memory_usage := 0; model_dim := 0; device_id := 0 |}.

Definition w0 : world := {| trace := []; dirs := []; ticks := 0 |}.

End Toy.

(** ** Further observations *)

Definition is_makedirs (ev : event) : bool :=
  match ev with EvMakedirs _ => true | _ => false end.

Definition is_step (ev : event) : bool :=
  match ev with EvOptimStep _ => true | _ => false end.

Definition is_restore (ev : event) : bool :=
  match ev with EvLoadStateDict => true | _ => false end.

(** The nested directories [load_args] walks, outermost first. *)
Definition levels (float_repr : Q -> string) (parsed : options)
  : list string :=
  let d1 := outdir parsed in
  let d2 := d1 ++ "/" ++ dataset parsed in
  let d3 := d2 ++ "/seed" ++ str_int (seed parsed) in
  let d4 := if use_edge_attr parsed then d3 ++ "/edge_attr" else d3 in
  let pedir := match abs_pe parsed with
               | None => "None"
               | Some pe => pe ++ "_" ++ str_int (abs_pe_dim parsed)
               end in
  let d5 := d4 ++ "/" ++ pedir in
  let bn := if negb (layer_norm parsed) then "BN" else "LN" in
  let d6 := d5 ++ "/" ++ hyper_dir float_repr parsed bn in
  if String.eqb (outdir parsed) "" then []
  else ([d1; d2; d3] ++ (if use_edge_attr parsed then [d4] else [])
        ++ [d5; d6])%list.

(** The guarded [os.makedirs] of every path of a list, in order. *)
Definition ensure_all {state_dict optim batch : Type}
    (E : framework state_dict optim batch) (ps : list string) (w : world)
  : world :=
  fold_left (fun v p => snd (ensure_dir E p v)) ps w.

(** A file system on which [os.makedirs] succeeds: the path exists
    afterwards and nothing disappears. *)
Definition creating {state_dict optim batch : Type}
    (E : framework state_dict optim batch) : Prop :=
  forall p ds, exists ds',
    makedirs E p ds = Some ds' /\ In p ds' /\ incl ds ds'.

(** The framework [E] with another [os.makedirs]. *)
Definition with_makedirs {state_dict optim batch : Type}
    (f : string -> list string -> option (list string))
    (E : framework state_dict optim batch) : framework state_dict optim batch :=
  {| cuda_is_available := cuda_is_available E;
     makedirs := f;
     clock := clock E;
     train_loader := train_loader E;
     val_loader := val_loader E;
     test_loader := test_loader E;
     labels := labels E;
     batch_cuda := batch_cuda E;
     sign_flip := sign_flip E;
     GraphTransformer := GraphTransformer E;
     count_parameters := count_parameters E;
     AdamW := AdamW E;
     forward := forward E;
     optim_step := optim_step E;
     cosine_step := cosine_step E;
     torch_cat := torch_cat E;
     print_gpu_utilization := print_gpu_utilization E;
     np_mean := np_mean E;
     np_std := np_std E |}.

(** The small framework on a file system that refuses every
    [os.makedirs]. *)
Definition read_only : framework Z unit Toy.batch :=
  with_makedirs (fun _ _ => None) Toy.pytorch.

(** The small framework on a machine without CUDA. *)
Definition cpu_only : framework Z unit Toy.batch :=
  Toy.fw (Raise RuntimeError) false Toy.two Toy.three Toy.three.

(** The small framework with no training batch. *)
Definition no_batches : framework Z unit Toy.batch :=
  Toy.fw (Raise RuntimeError) true
    {| batches := []; dataset_len := 0 |} Toy.three Toy.three.



(** What holds of the locals of [main] after [k] epochs: every log has
    [k] entries, no logged validation score exceeds the best one, and a
    bound snapshot belongs to the earliest epoch that reached it. *)
Definition bookkept {state_dict optim batch : Type} (k : nat)
    (st : run_state state_dict optim batch) : Prop :=
  length (log_train_loss (logs st)) = k /\
  length (log_val_score (logs st)) = k /\
  length (log_test_score (logs st)) = k /\
  length (per_epoch_time st) = k /\
  Forall (fun v => v <= best_val_score (best st))%Q
    (log_val_score (logs st)) /\
  (best_weights (best st) = None -> best st = sentinel) /\
  (best_weights (best st) <> None ->
   0 <= best_epoch (best st) < Z.of_nat k /\
   nth_error (log_val_score (logs st)) (Z.to_nat (best_epoch (best st)))
   = Some (best_val_score (best st)) /\
   Forall (fun v => v < best_val_score (best st))%Q
     (firstn (Z.to_nat (best_epoch (best st)))
        (log_val_score (logs st)))).

(** The options [main] holds after [k] epochs: the loaded ones with the
    parameter count, and the memory sample once epoch 1 has run. *)
Definition options_after {state_dict optim batch : Type}
    (float_repr : Q -> string) (E : framework state_dict optim batch)
    (parsed : options) (k : nat) : options :=
  let a := loaded float_repr E parsed in
  let o := set_total_params (count_parameters E (GraphTransformer E a))
             (opts a) in
  if (2 <=? k)%nat
  then set_memory_usage (print_gpu_utilization E (device_id parsed)) o
  else o.

(** The world [main] has reached when it computes [lr_steps] at line
    280: arguments loaded, generators seeded, the model moved. *)
Definition after_setup {state_dict optim batch : Type}
    (float_repr : Q -> string) (E : framework state_dict optim batch)
    (parsed : options) (w : world) : world :=
  let v := snd (load_args float_repr E parsed w) in
  {| trace := (trace v ++ EvSeed (seed parsed)
                 :: (if cuda_is_available E then [EvModelCuda] else []))%list;
     dirs := dirs v; ticks := ticks v |}.

(** The locals [main] enters its epoch loop with, the clock having read
    [t0] and [start_time]. *)
Definition start_state {state_dict optim batch : Type}
    (float_repr : Q -> string) (E : framework state_dict optim batch)
    (parsed : options) (t0 start_time : Q)
  : run_state state_dict optim batch :=
  let a := loaded float_repr E parsed in
  let model := GraphTransformer E a in
  let a' := update_opts (set_total_params (count_parameters E model)) a in
  {| args := a';
     net := {| params := model; rate := lr (opts a');
               moments := AdamW E model (lr (opts a'))
                            (weight_decay (opts a')) |};
     last_epoch := 0; test_ld := test_loader E a;
     t0 := t0; start_time := start_time;
     best := sentinel; logs := empty_logs; per_epoch_time := [] |}.

(** The arguments, the scheduler counter and the test loader after [k]
    passes of the epoch loop. *)
Definition scheduled {state_dict optim batch : Type}
    (float_repr : Q -> string) (E : framework state_dict optim batch)
    (parsed : options) (k : nat)
    (st : run_state state_dict optim batch) : Prop :=
  args st
  = {| opts := options_after float_repr E parsed k;
       use_cuda := cuda_is_available E;
       batch_norm := negb (layer_norm parsed);
       save_logs := negb (String.eqb (outdir parsed) "") |} /\
  last_epoch st
  = Z.of_nat (length (filter (fun e => warmup parsed <=? e)
                        (map Z.of_nat (seq 0 k)))) /\
  test_ld st = test_loader E (loaded float_repr E parsed).

(** * Facts *)

(** ** The monad *)

Section MonadFacts.

Context {A B : Type}.

Lemma bind_Return (m : M A) (k : A -> M B) w a w1 :
  m w = (Return a, w1) -> bind m k w = k a w1.
Proof. intros H. unfold bind. now rewrite H. Qed.

Lemma bind_Raise (m : M A) (k : A -> M B) w e w1 :
  m w = (Raise e, w1) -> bind m k w = (Raise e, w1).
Proof. intros H. unfold bind. now rewrite H. Qed.

Lemma bind_Return_inv (m : M A) (k : A -> M B) w b w2 :
  bind m k w = (Return b, w2) ->
  exists a w1, m w = (Return a, w1) /\ k a w1 = (Return b, w2).
Proof.
  unfold bind. destruct (m w) as [[a | e] w1]; intros H.
  - now exists a, w1.
  - discriminate.
Qed.

Lemma silent_bind p (m : M A) (k : A -> M B) :
  silent p m -> (forall a, silent p (k a)) -> silent p (bind m k).
Proof.
  intros Hm Hk w. unfold bind. specialize (Hm w).
  destruct (m w) as [[a | e] w1]; simpl in *.
  - now rewrite Hk.
  - exact Hm.
Qed.

Lemma yields_bind (m : M A) (k : A -> M B) (P : A -> Prop) (Q : B -> Prop) :
  yields m P -> (forall a, P a -> yields (k a) Q) -> yields (bind m k) Q.
Proof.
  intros Hm Hk w. destruct (Hm w) as (a & w1 & Hw & Ha).
  destruct (Hk a Ha w1) as (b & w2 & Hb & Hq).
  exists b, w2. split; [| exact Hq].
  now rewrite (bind_Return _ _ _ _ _ Hw).
Qed.

Lemma fails_bind_l (m : M A) (k : A -> M B) : fails m -> fails (bind m k).
Proof.
  intros Hm w b Hb. unfold bind in Hb. specialize (Hm w).
  destruct (m w) as [[a | e] w1]; simpl in *.
  - now apply (Hm a).
  - discriminate.
Qed.

Lemma fails_bind_r (m : M A) (k : A -> M B) :
  (forall a, fails (k a)) -> fails (bind m k).
Proof.
  intros Hk w b Hb. unfold bind in Hb.
  destruct (m w) as [[a | e] w1]; simpl in *.
  - now apply (Hk a w1 b).
  - discriminate.
Qed.

End MonadFacts.

Lemma silent_ret {A} p (a : A) : silent p (ret a).
Proof. now intros w. Qed.

Lemma silent_raise {A} p e : silent p (@raise A e).
Proof. now intros w. Qed.

Lemma silent_lift {A} p (r : result A) : silent p (lift r).
Proof. now intros w. Qed.

Lemma silent_emit p ev : p ev = false -> silent p (emit ev).
Proof.
  intros H w. simpl. rewrite filter_app. simpl. rewrite H.
  now rewrite app_nil_r.
Qed.

Lemma silent_py_div p a n : silent p (py_div a n).
Proof.
  unfold py_div. destruct (n =? 0); [apply silent_raise | apply silent_ret].
Qed.

Lemma silent_count {A} p (m : M A) w :
  silent p m -> count p (snd (m w)) = count p w.
Proof. intros H. unfold count. now rewrite H. Qed.

Lemma yields_ret {A} (a : A) (P : A -> Prop) : P a -> yields (ret a) P.
Proof. intros H w. now exists a, w. Qed.

Lemma fails_lift_Raise {A} e : fails (@lift A (Raise e)).
Proof. intros w a H. discriminate. Qed.

Lemma Qltb_lt a b : Qltb a b = true -> (a < b)%Q.
Proof.
  unfold Qltb. intros H. apply Qlt_alt. now destruct (a ?= b)%Q.
Qed.

Lemma Qltb_ge a b : Qltb a b = false -> (b <= a)%Q.
Proof.
  unfold Qltb. intros H. apply Qnot_lt_le. intros Hlt.
  pose proof (proj1 (Qlt_alt a b) Hlt) as Hc.
  change ((a ?= b)%Q = Lt) in Hc. now rewrite Hc in H.
Qed.

Lemma append_assoc (a b c : string) : (a ++ b) ++ c = a ++ (b ++ c).
Proof. induction a as [| ch a IH]; simpl; [reflexivity | now rewrite IH]. Qed.

Lemma append_empty_r (a : string) : a ++ "" = a.
Proof. induction a as [| ch a IH]; simpl; [reflexivity | now rewrite IH]. Qed.

(** Inverts one [bind] that returned. *)
Ltac unbind H :=
  let a := fresh "a" in
  let w := fresh "w" in
  let Ha := fresh "Ha" in
  apply bind_Return_inv in H; destruct H as (a & w & Ha & H).

Lemma silent_timer {state_dict optim batch : Type}
    (E : framework state_dict optim batch) p :
  silent p (timer E).
Proof. now intros w. Qed.

(** Closes [silent] goals built from the plain operations. *)
Ltac quiet :=
  repeat first
    [ apply silent_ret | apply silent_raise | apply silent_lift
    | apply silent_py_div | apply silent_timer
    | apply silent_bind; [| intros ?] ].

Tactic Notation "bound" hyp(H) "as" simple_intropattern(a) ident(w)
    ident(Ha) :=
  apply bind_Return_inv in H; destruct H as (a & w & Ha & H).

Section DriverFacts.

Context {state_dict optim batch : Type}.
Variable float_repr : Q -> string.
Variable E : framework state_dict optim batch.

Lemma timer_run w :
  timer E w = (Return (clock E (ticks w)),
               {| trace := trace w; dirs := dirs w; ticks := S (ticks w) |}).
Proof. reflexivity. Qed.

Lemma silent_ensure_dir p path :
  (forall q, p (EvMakedirs q) = false) -> silent p (ensure_dir E path).
Proof.
  intros H w. unfold ensure_dir.
  destruct (existsb _ _); [reflexivity |].
  destruct (makedirs E path (dirs w)); simpl;
    rewrite filter_app; simpl; rewrite H; now rewrite app_nil_r.
Qed.

Lemma yields_ensure_dir path : yields (ensure_dir E path) (fun _ => True).
Proof.
  intros w. unfold ensure_dir.
  destruct (existsb _ _); [now exists tt, w |].
  destruct (makedirs E path (dirs w)); eexists tt, _; split; reflexivity || exact I.
Qed.

(** [load_args] always returns; without an output directory it leaves the
    options as parsed, otherwise it stores the derived path. *)
Lemma load_args_yields parsed :
  yields (load_args float_repr E parsed)
    (fun a =>
       use_cuda a = cuda_is_available E /\
       batch_norm a = negb (layer_norm parsed) /\
       save_logs a = negb (String.eqb (outdir parsed) "") /\
       opts a = if String.eqb (outdir parsed) "" then parsed
                else set_outdir (derived_outdir float_repr parsed) parsed).
Proof.
  unfold load_args. destruct (String.eqb (outdir parsed) "") eqn:Hout.
  - apply yields_ret. auto.
  - repeat (eapply yields_bind; [apply yields_ensure_dir | intros _ _]).
    eapply yields_bind with
      (P := fun p => p = outdir parsed ++ "/" ++ dataset parsed ++ "/seed"
                        ++ str_int (seed parsed)
                        ++ (if use_edge_attr parsed then "/edge_attr" else "")).
    + destruct (use_edge_attr parsed).
      * eapply yields_bind; [apply yields_ensure_dir | intros _ _].
        apply yields_ret.
        now rewrite !append_assoc.
      * apply yields_ret. rewrite !append_assoc.
        now rewrite append_empty_r.
    + intros p ->.
      eapply yields_bind; [apply yields_ensure_dir | intros _ _].
      eapply yields_bind; [apply yields_ensure_dir | intros _ _].
      apply yields_ret. cbn [opts use_cuda batch_norm save_logs negb].
      repeat split. f_equal. unfold derived_outdir.
      destruct (layer_norm parsed); cbn [negb];
        rewrite !append_assoc; reflexivity.
Qed.

Lemma silent_load_args p parsed :
  (forall q, p (EvMakedirs q) = false) ->
  silent p (load_args float_repr E parsed).
Proof.
  intros H. unfold load_args.
  destruct (String.eqb (outdir parsed) ""); [apply silent_ret |].
  repeat (apply silent_bind; [now apply silent_ensure_dir | intros _]).
  apply silent_bind.
  - destruct (use_edge_attr parsed); [| apply silent_ret].
    apply silent_bind; [now apply silent_ensure_dir | intros _].
    apply silent_ret.
  - intros d.
    repeat (apply silent_bind; [now apply silent_ensure_dir | intros _]).
    apply silent_ret.
Qed.

Lemma silent_cuda p b : p EvCuda = false -> silent p (cuda E b).
Proof.
  intros H. unfold cuda. apply silent_bind; [now apply silent_emit |].
  intros _. apply silent_lift.
Qed.

Lemma silent_train_loop p a sched epoch uc n bs :
  (uc = true -> p EvCuda = false) ->
  (forall r, p (EvOptimStep r) = false) ->
  forall i t rl, silent p (train_loop E a sched epoch uc n bs i t rl).
Proof.
  intros Hc Hs. induction bs as [| data rest IH]; intros i t rl; simpl.
  - apply silent_ret.
  - apply silent_bind.
    + destruct uc; [apply silent_cuda; now apply Hc | apply silent_ret].
    + intros d. destruct (optim_step E _ _ _ d) as [[p' m'] loss].
      apply silent_bind; [now apply silent_emit | intros _]. apply IH.
Qed.

Lemma silent_train_epoch p a t ld sched epoch uc :
  (uc = true -> p EvCuda = false) ->
  (forall r, p (EvOptimStep r) = false) ->
  silent p (train_epoch E a t ld sched epoch uc).
Proof.
  intros Hc Hs. unfold train_epoch.
  apply silent_bind; [apply silent_timer | intros tic].
  apply silent_bind; [now apply silent_train_loop | intros [t' rl]].
  quiet.
Qed.

Lemma silent_eval_loop p model bs :
  p EvCuda = false -> forall c, silent p (eval_loop E model bs c).
Proof.
  intros Hc. induction bs as [| b rest IH]; intros c; simpl.
  - apply silent_ret.
  - apply silent_bind; [now apply silent_cuda | intros b'].
    quiet. apply IH.
Qed.

Lemma silent_eval_epoch p model ld uc split :
  p EvCuda = false -> silent p (eval_epoch E model ld uc split).
Proof.
  intros Hc. unfold eval_epoch.
  apply silent_bind; [apply silent_timer | intros tic].
  apply silent_bind; [now apply silent_eval_loop | intros c].
  quiet.
Qed.

Lemma silent_epoch_body p train_ld val_ld steps epoch st :
  inner p -> silent p (epoch_body E train_ld val_ld steps epoch st).
Proof.
  intros (Hc & Hm & Hl & Hs & Hd). unfold epoch_body.
  apply silent_bind; [apply silent_timer | intros start].
  apply silent_bind; [now apply silent_train_epoch | intros [tl t]].
  apply silent_bind; [now apply silent_eval_epoch | intros [vs vl]].
  apply silent_bind; [now apply silent_eval_epoch | intros [ts tl']].
  destruct (_ >=? _); quiet.
Qed.

Lemma silent_epoch_loop p train_ld val_ld steps es :
  inner p ->
  forall st, silent p (epoch_loop E train_ld val_ld steps es st).
Proof.
  intros Hp. induction es as [| e rest IH]; intros st; simpl.
  - apply silent_ret.
  - apply silent_bind; [now apply silent_epoch_body | exact IH].
Qed.

Lemma silent_persist p (st : run_state state_dict optim batch) ts tl tt :
  save_logs (args st) = false \/
  (forall ev, is_artifact ev = true -> p ev = false) ->
  silent p (persist st ts tl tt).
Proof.
  intros H. unfold persist.
  destruct (save_logs (args st)) eqn:Hs; [| apply silent_ret].
  destruct H as [H | H]; [discriminate |].
  repeat (apply silent_bind; [now apply silent_emit, H | intros _]).
  now apply silent_emit, H.
Qed.

Lemma silent_main_finish p st :
  inner p ->
  save_logs (args st) = false \/
  (forall ev, is_artifact ev = true -> p ev = false) ->
  silent p (main_finish E st).
Proof.
  intros (Hc & Hm & Hl & Hs & Hd) Ha. unfold main_finish.
  apply silent_bind; [apply silent_timer | intros now1].
  apply silent_bind; [apply silent_timer | intros now2].
  apply silent_bind.
  { destruct (best_weights (best st)); quiet. }
  intros weights.
  apply silent_bind; [now apply silent_emit | intros _].
  apply silent_bind; [now apply silent_eval_epoch | intros [ts tl]].
  apply silent_bind; [now apply silent_persist | intros _].
  apply silent_ret.
Qed.

(** *** Evaluation *)

(** The batch loop adds the exact-match count of every batch. *)
Lemma eval_loop_counts model bs :
  forall c w c' w',
    eval_loop E model bs c w = (Return c', w') ->
    exists hits,
      Forall2 (fun b h => batch_hits E model b = Return h) bs hits /\
      c' = fold_left Z.add hits c.
Proof.
  induction bs as [| b rest IH]; intros c w c' w' H; simpl in H.
  - injection H as <- _. now exists [].
  - unbind H. unfold cuda in Ha. unbind Ha. unfold lift in Ha.
    unbind H. unbind H. unfold lift in Ha1, Ha2.
    injection Ha as Hb _. injection Ha1 as Hp _. injection Ha2 as Hh _.
    destruct (IH _ _ _ _ H) as (hits & Hall & ->).
    exists (a2 :: hits). split; [| reflexivity].
    constructor; [| exact Hall].
    unfold batch_hits. now rewrite Hb, Hp.
Qed.

(** Once [torch.cat] rejects the empty list, [eval_epoch] cannot return. *)
Lemma eval_epoch_fails model ld uc split e0 :
  torch_cat E [] = Raise e0 -> fails (eval_epoch E model ld uc split).
Proof.
  intros Hcat. unfold eval_epoch.
  apply fails_bind_r; intros tic.
  apply fails_bind_r; intros correct.
  apply fails_bind_r; intros toc.
  apply fails_bind_l. rewrite Hcat. apply fails_lift_Raise.
Qed.

(** When the batch loop returns, the error is the one of [torch.cat]. *)
Lemma eval_epoch_raises model ld uc split e0 w c w1 :
  torch_cat E [] = Raise e0 ->
  eval_loop E model (batches ld) 0
    {| trace := trace w; dirs := dirs w; ticks := S (ticks w) |}
    = (Return c, w1) ->
  eval_epoch E model ld uc split w
  = (Raise e0, {| trace := trace w1; dirs := dirs w1; ticks := S (ticks w1) |}).
Proof.
  intros Hcat Hloop. unfold eval_epoch.
  rewrite (bind_Return _ _ _ _ _ (timer_run w)).
  rewrite (bind_Return _ _ _ _ _ Hloop).
  rewrite (bind_Return _ _ _ _ _ (timer_run w1)).
  rewrite Hcat. reflexivity.
Qed.

(** What [eval_epoch] returns, when it does. *)
Lemma eval_epoch_returns model ld uc split w score loss w' :
  eval_epoch E model ld uc split w = (Return (score, loss), w') ->
  dataset_len ld <> 0 /\
  loss = (0 / inject_Z (dataset_len ld))%Q /\
  exists hits,
    Forall2 (fun b h => batch_hits E model b = Return h) (batches ld) hits /\
    score = (inject_Z (fold_left Z.add hits 0%Z) / inject_Z (dataset_len ld))%Q.
Proof.
  intros H. unfold eval_epoch in H.
  unbind H. unbind H. unbind H. unbind H. unbind H. unbind H. unbind H.
  apply eval_loop_counts in Ha0. destruct Ha0 as (hits & Hall & ->).
  unfold py_div in Ha4, Ha5.
  destruct (dataset_len ld =? 0) eqn:Hn; [discriminate |].
  apply Z.eqb_neq in Hn.
  injection Ha4 as <- _. injection Ha5 as <- _. injection H as <- <- _.
  split; [exact Hn |]. split; [reflexivity |]. now exists hits.
Qed.

(** *** The epoch loop *)

Lemma fails_epoch_body train_ld val_ld steps epoch st e0 :
  torch_cat E [] = Raise e0 ->
  fails (epoch_body E train_ld val_ld steps epoch st).
Proof.
  intros Hcat. unfold epoch_body.
  apply fails_bind_r; intros start.
  apply fails_bind_r; intros [tl t].
  apply fails_bind_l. now apply eval_epoch_fails with e0.
Qed.

Lemma fails_main_finish st e0 :
  torch_cat E [] = Raise e0 -> fails (main_finish E st).
Proof.
  intros Hcat. unfold main_finish.
  apply fails_bind_r; intros now1.
  apply fails_bind_r; intros now2.
  apply fails_bind_r; intros weights.
  apply fails_bind_r; intros _.
  apply fails_bind_l. now apply eval_epoch_fails with e0.
Qed.

Lemma fails_main parsed e0 :
  torch_cat E [] = Raise e0 -> fails (main float_repr E parsed).
Proof.
  intros Hcat. unfold main. apply fails_bind_r; intros st.
  now apply fails_main_finish with e0.
Qed.

(** One pass that returns has evaluated the validation split, logged its
    score and passed it to [track_best]. *)
Lemma epoch_body_inv train_ld val_ld steps epoch st w st' w' :
  epoch_body E train_ld val_ld steps epoch st w = (Return st', w') ->
  exists model val_score val_loss w1 w2,
    eval_epoch E model val_ld (use_cuda (args st)) "Val" w1
      = (Return (val_score, val_loss), w2) /\
    best st' = track_best (best st) epoch val_score val_loss model /\
    log_val_score (logs st') = (log_val_score (logs st) ++ [val_score])%list.
Proof.
  intros H. unfold epoch_body in H.
  unbind H. unbind H. destruct a0 as [train_loss t].
  unbind H. destruct a0 as [val_score val_loss].
  unbind H. destruct a0 as [test_score test_loss].
  exists (params t), val_score, val_loss, w1, w2.
  split; [exact Ha1 |].
  destruct (epoch >=? _); unbind H; injection H as <- _; split; reflexivity.
Qed.

Lemma load_args_loaded parsed :
  yields (load_args float_repr E parsed)
    (fun a => a = loaded float_repr E parsed).
Proof.
  intros w. destruct (load_args_yields parsed w) as (a & w' & Hw & H).
  exists a, w'. split; [exact Hw |].
  destruct a as [o c b l]. simpl in H. destruct H as (-> & -> & -> & ->).
  reflexivity.
Qed.

Lemma opts_loaded_epochs parsed :
  epochs (opts (loaded float_repr E parsed)) = epochs parsed.
Proof. simpl. now destruct (String.eqb _ _). Qed.

Lemma opts_loaded_warmup parsed :
  warmup (opts (loaded float_repr E parsed)) = warmup parsed.
Proof. simpl. now destruct (String.eqb _ _). Qed.

(** The state [main] enters its loop with. *)
Lemma main_loop_inv parsed w st w1 :
  main_loop float_repr E parsed w = (Return st, w1) ->
  let a := loaded float_repr E parsed in
  exists st0 w0 steps,
    epoch_loop E (train_loader E a) (val_loader E a) steps
      (range (epochs parsed)) st0 w0 = (Return st, w1) /\
    warmup parsed * Z.of_nat (length (batches (train_loader E a))) <> 0 /\
    save_logs (args st0) = save_logs a /\
    best st0 = sentinel /\ logs st0 = empty_logs /\
    per_epoch_time st0 = [].
Proof.
  intros H a. unfold main_loop in H.
  unbind H. destruct (load_args_loaded parsed w) as (a1 & w' & Hw & ->).
  rewrite Hw in Ha. injection Ha as <- _. fold a in H.
  unbind H. unbind H. unbind H. unbind H. unbind H.
  unfold py_div in Ha1. cbn [opts update_opts] in Ha1, H.
  replace (warmup (set_total_params _ (opts a))) with (warmup parsed) in Ha1
    by (symmetry; apply opts_loaded_warmup).
  replace (epochs (set_total_params _ (opts a))) with (epochs parsed) in H
    by (symmetry; apply opts_loaded_epochs).
  destruct (_ =? 0) eqn:Hz; [discriminate |]. apply Z.eqb_neq in Hz.
  eexists _, _, _. split; [exact H |]. now repeat split.
Qed.

(** [main] reaches its loop whenever the warmup step size can be
    computed. *)
Lemma main_loop_enters parsed w :
  let a := loaded float_repr E parsed in
  warmup parsed * Z.of_nat (length (batches (train_loader E a))) <> 0 ->
  exists st0 w0 steps,
    main_loop float_repr E parsed w
    = epoch_loop E (train_loader E a) (val_loader E a) steps
        (range (epochs parsed)) st0 w0 /\
    save_logs (args st0) = save_logs a /\
    best st0 = sentinel /\ logs st0 = empty_logs /\
    per_epoch_time st0 = [].
Proof.
  intros a Hz. unfold main_loop.
  destruct (load_args_loaded parsed w) as (a1 & w' & Hw & ->). fold a in Hw.
  rewrite (bind_Return _ _ _ _ _ Hw).
  unfold bind at 1, emit at 1. cbv iota beta.
  set (w2 := {| trace := _ |}).
  assert (Hc : exists w3,
             (if use_cuda a then emit EvModelCuda else ret tt) w2
             = (Return tt, w3)).
  { destruct (use_cuda a); eexists; reflexivity. }
  destruct Hc as (w3 & Hc). rewrite (bind_Return _ _ _ _ _ Hc).
  unfold py_div. cbn [opts update_opts].
  replace (warmup (set_total_params _ (opts a))) with (warmup parsed)
    by (symmetry; apply opts_loaded_warmup).
  replace (epochs (set_total_params _ (opts a))) with (epochs parsed)
    by (symmetry; apply opts_loaded_epochs).
  apply Z.eqb_neq in Hz. rewrite Hz.
  unfold bind at 1, ret at 1. cbv iota beta.
  rewrite (bind_Return _ _ _ _ _ (timer_run w3)).
  rewrite (bind_Return _ _ _ _ _ (timer_run _)).
  eexists _, _, _. split; [reflexivity |]. now repeat split.
Qed.

(** Whatever one pass preserves, the loop preserves. *)
Lemma epoch_loop_invariant (I : run_state state_dict optim batch -> Prop)
    train_ld val_ld steps :
  (forall epoch st w st' w',
      epoch_body E train_ld val_ld steps epoch st w = (Return st', w') ->
      I st -> I st') ->
  forall es st w st' w',
    epoch_loop E train_ld val_ld steps es st w = (Return st', w') ->
    I st -> I st'.
Proof.
  intros Hstep. induction es as [| e rest IH]; intros st w st' w' H Hi.
  - injection H as <- _. exact Hi.
  - simpl in H. unbind H. eapply IH; [exact H |].
    eapply Hstep; [exact Ha | exact Hi].
Qed.

Lemma epoch_body_save_logs train_ld val_ld steps epoch st w st' w' :
  epoch_body E train_ld val_ld steps epoch st w = (Return st', w') ->
  save_logs (args st') = save_logs (args st).
Proof.
  intros H. unfold epoch_body in H.
  unbind H. unbind H. destruct a0 as [train_loss t].
  unbind H. destruct a0 as [val_score val_loss].
  unbind H. destruct a0 as [test_score test_loss].
  destruct (epoch >=? _); unbind H; injection H as <- _; simpl;
    now destruct (epoch =? 1).
Qed.

Lemma main_loop_save_logs parsed w st w1 :
  main_loop float_repr E parsed w = (Return st, w1) ->
  save_logs (args st) = negb (String.eqb (outdir parsed) "").
Proof.
  intros H. destruct (main_loop_inv _ _ _ _ H)
    as (st0 & w0 & steps & Hloop & _ & Hs & _).
  change (negb _) with (save_logs (loaded float_repr E parsed)).
  rewrite <- Hs.
  apply (epoch_loop_invariant
           (fun s => save_logs (args s) = save_logs (args st0)))
    with (1 := fun e s w s' w' Hb Hi =>
                 eq_trans (epoch_body_save_logs _ _ _ _ _ _ _ _ Hb) Hi)
         (2 := Hloop).
  reflexivity.
Qed.

(** *** Device transfers *)

Lemma count_emit p ev w :
  count p (snd (emit ev w)) = (count p w + if p ev then 1 else 0)%nat.
Proof.
  unfold count. simpl. rewrite filter_app, length_app. simpl.
  now destruct (p ev).
Qed.

(** Every pass of the evaluation loop starts with a transfer. *)
Lemma eval_loop_transfers model (bs : list batch) :
  forall c w,
    (count is_cuda w + match bs with [] => 0 | _ => 1 end
     <= count is_cuda (snd (eval_loop E model bs c w)))%nat.
Proof.
  induction bs as [| b rest IH]; intros c w; simpl.
  - lia.
  - unfold bind at 1, cuda, bind at 1, lift at 1.
    change (emit EvCuda w) with (Return tt, snd (emit EvCuda w)).
    cbv iota beta.
    pose proof (count_emit is_cuda EvCuda w) as Hc. simpl in Hc.
    destruct (batch_cuda E b) as [b' | e]; [| simpl; lia].
    unfold bind at 1, lift at 1.
    destruct (max_dim1 _) as [pred | e]; [| simpl; lia].
    unfold bind at 1, lift at 1.
    destruct (eq_sum _ _) as [hits | e]; [| simpl; lia].
    specialize (IH (c + hits) (snd (emit EvCuda w))).
    destruct rest; simpl in *; lia.
Qed.

(** A loop that returns has transferred every batch. *)
Lemma eval_loop_transfers_all model bs :
  forall c w c' w',
    eval_loop E model bs c w = (Return c', w') ->
    count is_cuda w' = (count is_cuda w + length bs)%nat.
Proof.
  induction bs as [| b rest IH]; intros c w c' w' H; simpl in H.
  - injection H as _ <-. simpl. lia.
  - unbind H. unfold cuda in Ha. unbind Ha. unfold lift in Ha.
    unbind H. unbind H. unfold lift in Ha1, Ha2.
    injection Ha as _ <-. injection Ha1 as _ <-. injection Ha2 as _ <-.
    apply IH in H. rewrite H.
    assert (Hw : w1 = snd (emit EvCuda w)) by now rewrite Ha0.
    rewrite Hw, count_emit. simpl. lia.
Qed.

Lemma eval_epoch_transfers model ld uc split w :
  count is_cuda (snd (eval_epoch E model ld uc split w))
  = count is_cuda
      (snd (eval_loop E model (batches ld) 0
              {| trace := trace w; dirs := dirs w; ticks := S (ticks w) |})).
Proof.
  unfold eval_epoch. rewrite (bind_Return _ _ _ _ _ (timer_run w)).
  unfold bind at 1.
  destruct (eval_loop _ _ _ _ _) as [[c | e] w1]; [| reflexivity].
  apply silent_count. quiet.
Qed.

(** *** Warmup *)

Lemma step_rates_app l1 l2 :
  step_rates (l1 ++ l2) = (step_rates l1 ++ step_rates l2)%list.
Proof. apply flat_map_app. Qed.

(** One pass of the training loop, spelled out. *)
Lemma train_loop_cons a sched epoch uc n data rest i t rl w :
  train_loop E a sched epoch uc n (data :: rest) i t rl w
  = let t1 := if epoch <? warmup (opts a)
              then set_rate (sched (epoch * n + i)) t else t in
    let d0 := match abs_pe (opts a) with
              | Some pe => if String.eqb pe "lap" then sign_flip E data
                           else data
              | None => data
              end in
    let w1 := if uc then snd (emit EvCuda w) else w in
    match (if uc then batch_cuda E d0 else Return d0) with
    | Raise e => (Raise e, w1)
    | Return d =>
        let '(p, m, loss) :=
          optim_step E (params t1) (moments t1) (rate t1) d in
        train_loop E a sched epoch uc n rest (i + 1)
          {| params := p; rate := rate t1; moments := m |}
          (rl + loss * inject_Z (Z.of_nat (length (labels E data))))%Q
          (snd (emit (EvOptimStep (rate t1)) w1))
    end.
Proof.
  cbn [train_loop]. cbv zeta. unfold bind at 1.
  destruct uc.
  - unfold cuda, bind, emit, lift. cbn [snd].
    destruct (batch_cuda E _) as [d | e]; [| reflexivity].
    now destruct (optim_step E _ _ _ d) as [[p m] loss].
  - unfold ret at 1.
    match goal with
    | |- context [optim_step E ?x ?y ?z ?d] =>
        now destruct (optim_step E x y z d) as [[p m] loss]
    end.
Qed.


(** [train_epoch], spelled out around its loop. *)
Lemma train_epoch_run a t ld sched epoch uc w :
  train_epoch E a t ld sched epoch uc w
  = match train_loop E a sched epoch uc (Z.of_nat (length (batches ld)))
            (batches ld) 0 t 0
            {| trace := trace w; dirs := dirs w; ticks := S (ticks w) |} with
    | (Return (t1, rl), w1) =>
        let w2 := {| trace := trace w1; dirs := dirs w1;
                     ticks := S (ticks w1) |} in
        if dataset_len ld =? 0 then (Raise ZeroDivisionError, w2)
        else (Return ((rl / inject_Z (dataset_len ld))%Q, t1), w2)
    | (Raise e, w1) => (Raise e, w1)
    end.
Proof.
  unfold train_epoch. rewrite (bind_Return _ _ _ _ _ (timer_run w)).
  unfold bind at 1.
  destruct (train_loop _ _ _ _ _ _ _ _ _ _ _) as [[[t1 rl] | e] w1];
    [| reflexivity].
  rewrite (bind_Return _ _ _ _ _ (timer_run w1)).
  unfold bind, py_div. now destruct (dataset_len ld =? 0).
Qed.


(** *** The best-checkpoint record *)

Lemma tracked_step train_ld val_ld steps epoch st w st' w' :
  epoch_body E train_ld val_ld steps epoch st w = (Return st', w') ->
  tracked st -> tracked st'.
Proof.
  intros H (Hpos & Hnone & Hsome).
  destruct (epoch_body_inv _ _ _ _ _ _ _ _ H)
    as (model & vs & vl & w1 & w2 & _ & Hb & Hl).
  unfold tracked. rewrite Hb, Hl. unfold track_best.
  destruct (Qltb (best_val_score (best st)) vs) eqn:Hlt.
  - apply Qltb_lt in Hlt. cbn [best_val_score best_weights].
    assert (0 < vs)%Q by (eapply Qle_lt_trans; eassumption).
    split; [now apply Qlt_le_weak |]. split; [discriminate |].
    intros _. apply Exists_app. right. now constructor.
  - apply Qltb_ge in Hlt. split; [exact Hpos |]. split.
    + intros Hn. destruct (Hnone Hn) as [Hz Hall]. split; [exact Hz |].
      apply Forall_app. split; [exact Hall |]. constructor; [| constructor].
      now rewrite Hz in Hlt.
    + intros Hn. apply Exists_app. left. now apply Hsome.
Qed.

Lemma main_loop_tracked parsed w st w1 :
  main_loop float_repr E parsed w = (Return st, w1) -> tracked st.
Proof.
  intros H. destruct (main_loop_inv _ _ _ _ H)
    as (st0 & w0 & steps & Hloop & _ & _ & Hb & Hl & _).
  apply (epoch_loop_invariant tracked) with (2 := Hloop).
  - intros e s w2 s' w3. apply tracked_step.
  - unfold tracked. rewrite Hb, Hl. simpl. split; [apply Qle_refl |].
    split; [now split | intros Hn; now elim Hn].
Qed.

(** The restore step on an unbound [best_weights]. *)
Lemma main_finish_unbound st w :
  best_weights (best st) = None ->
  fst (main_finish E st w) = Raise UnboundLocalError.
Proof.
  intros H. unfold main_finish.
  rewrite (bind_Return _ _ _ _ _ (timer_run w)).
  rewrite (bind_Return _ _ _ _ _ (timer_run _)).
  rewrite H. reflexivity.
Qed.

(** *** Runs *)

Lemma main_loop_seeds parsed w :
  filter is_seed (trace (snd (main_loop float_repr E parsed w)))
  = (filter is_seed (trace w) ++ [EvSeed (seed parsed)])%list.
Proof.
  unfold main_loop.
  destruct (load_args_loaded parsed w) as (a & w' & Hw & ->).
  rewrite (bind_Return _ _ _ _ _ Hw).
  assert (Hs : filter is_seed (trace w') = filter is_seed (trace w)).
  { change w' with (snd (Return (loaded float_repr E parsed), w')).
    rewrite <- Hw. now apply silent_load_args. }
  unfold bind at 1, emit at 1. cbv iota beta.
  match goal with
  | |- filter _ (trace (snd (?m ?w2))) = _ =>
      assert (Hq : silent is_seed m); [| rewrite Hq]
  end.
  - assert (Hi : inner is_seed) by now repeat split.
    apply silent_bind.
    { destruct (use_cuda _); [now apply silent_emit | apply silent_ret]. }
    intros _. quiet. now apply silent_epoch_loop.
  - cbn [trace]. rewrite filter_app, Hs. simpl.
    now destruct (String.eqb (outdir parsed) "").
Qed.

(** Every call of [main] seeds once, whatever its outcome. *)
Lemma main_seeds parsed w :
  count is_seed (snd (main float_repr E parsed w))
  = S (count is_seed w).
Proof.
  unfold count, main, bind.
  pose proof (main_loop_seeds parsed w) as Hs.
  destruct (main_loop float_repr E parsed w) as [[st | e] w1];
    cbn [snd] in *.
  - rewrite silent_main_finish; [| now repeat split | right; now intros []].
    rewrite Hs, length_app. simpl. lia.
  - rewrite Hs, length_app. simpl. lia.
Qed.

Lemma silent_bind_post {A B} p (m : M A) (k : A -> M B) :
  silent p m ->
  (forall w a w', m w = (Return a, w') -> silent p (k a)) ->
  silent p (bind m k).
Proof.
  intros Hm Hk w. unfold bind. specialize (Hm w).
  destruct (m w) as [[a | e] w1] eqn:Hw; simpl in *.
  - now rewrite (Hk _ _ _ Hw).
  - exact Hm.
Qed.

Lemma silent_main_loop p parsed :
  inner p -> (forall s, p (EvSeed s) = false) ->
  silent p (main_loop float_repr E parsed).
Proof.
  intros Hi Hs. pose proof Hi as (Hc & Hm & Hl & Ho & Hd).
  unfold main_loop.
  apply silent_bind; [now apply silent_load_args | intros a].
  apply silent_bind; [now apply silent_emit | intros _].
  apply silent_bind.
  { destruct (use_cuda _); [now apply silent_emit | apply silent_ret]. }
  intros _. quiet. now apply silent_epoch_loop.
Qed.

(** Without an output directory a run writes none of the three files. *)
Lemma silent_main_artifact parsed :
  outdir parsed = "" -> silent is_artifact (main float_repr E parsed).
Proof.
  intros Hout. unfold main.
  assert (Hi : inner is_artifact) by now repeat split.
  apply silent_bind_post; [now apply silent_main_loop |].
  intros w st w1 H. apply silent_main_finish; [exact Hi |]. left.
  rewrite (main_loop_save_logs _ _ _ _ H), Hout. reflexivity.
Qed.

Lemma silent_main_summary parsed :
  silent is_summary (main float_repr E parsed).
Proof.
  unfold main. assert (Hi : inner is_summary) by now repeat split.
  apply silent_bind; [now apply silent_main_loop | intros st].
  apply silent_main_finish; [exact Hi |]. right. now intros [].
Qed.

(** The ten-run loop, when it returns: one call of [main] for every run
    id, each returning, its five results appended in order. *)
Lemma runs_returns parsed ids :
  forall acc w acc' w',
    runs float_repr E parsed ids acc w = (Return acc', w') ->
    count is_seed w' = (count is_seed w + length ids)%nat /\
    filter is_summary (trace w') = filter is_summary (trace w) /\
    exists rs : list outcome,
      length rs = length ids /\
      Forall (fun r => exists v v', main float_repr E parsed v = (Return r, v'))
        rs /\
      test_scores acc' = (test_scores acc ++ map out_test_score rs)%list /\
      test_losses acc' = (test_losses acc ++ map out_test_loss rs)%list /\
      vals acc' = (vals acc ++ map out_val rs)%list /\
      total_time_list acc'
      = (total_time_list acc ++ map out_total_time rs)%list /\
      avg_time_list acc' = (avg_time_list acc ++ map out_avg_time rs)%list.
Proof.
  induction ids as [| run_id rest IH]; intros acc w acc' w' H; simpl in H.
  - injection H as <- <-. split; [simpl; lia |]. split; [reflexivity |].
    exists []. simpl. rewrite !app_nil_r. now repeat split.
  - bound H as r w1 Hmain. destruct r as [[[[ts tl] v] tt] av].
    apply IH in H. destruct H as (Hseed & Hsum & rs & Hlen & Hall & H).
    cbn [test_scores test_losses vals total_time_list avg_time_list] in H.
    destruct H as (H1 & H2 & H3 & H4 & H5).
    split; [| split].
    + rewrite Hseed.
      replace w1 with (snd (main float_repr E parsed w)) by now rewrite Hmain.
      rewrite main_seeds. simpl. lia.
    + rewrite Hsum.
      replace w1 with (snd (main float_repr E parsed w)) by now rewrite Hmain.
      apply silent_main_summary.
    + exists ((ts, tl, v, tt, av) :: rs). simpl.
      rewrite H1, H2, H3, H4, H5, <- !app_assoc. simpl.
      repeat split; try congruence.
      constructor; [now exists w, w1 | exact Hall].
Qed.

(** The loop never calls [main] more often than there are run ids. *)
Lemma runs_seeds_le parsed ids :
  forall acc w,
    (count is_seed (snd (runs float_repr E parsed ids acc w))
     <= count is_seed w + length ids)%nat.
Proof.
  induction ids as [| run_id rest IH]; intros acc w; simpl.
  - lia.
  - unfold bind. pose proof (main_seeds parsed w) as Hs.
    destruct (main float_repr E parsed w) as [[r | e] w1]; cbn [snd] in *.
    + destruct r as [[[[ts tl] v] tt] av].
      etransitivity; [apply IH |]. lia.
    + lia.
Qed.

End DriverFacts.

Lemma Qltb_true_iff a b : Qltb a b = true <-> (a < b)%Q.
Proof.
  split; [apply Qltb_lt |]. intros H. unfold Qltb.
  pose proof (proj1 (Qlt_alt a b) H) as Hc.
  change ((a ?= b)%Q = Lt) in Hc. now rewrite Hc.
Qed.

Section TransferFacts.

Context {state_dict optim batch : Type}.
Variable E : framework state_dict optim batch.

(** With [use_cuda] set, every pass of the training loop starts with a
    transfer. *)
Lemma train_loop_transfers a sched epoch n (bs : list batch) :
  forall i t rl w,
    (count is_cuda w + match bs with [] => 0 | _ => 1 end
     <= count is_cuda (snd (train_loop E a sched epoch true n bs i t rl w)))%nat.
Proof.
  induction bs as [| data rest IH]; intros i t rl w; simpl.
  - lia.
  - unfold bind at 1, cuda, bind at 1, lift at 1.
    change (emit EvCuda w) with (Return tt, snd (emit EvCuda w)).
    cbv iota beta.
    pose proof (count_emit is_cuda EvCuda w) as Hc. simpl in Hc.
    destruct (batch_cuda E _) as [b' | e]; [| simpl; lia].
    destruct (optim_step E _ _ _ b') as [[p m] loss].
    unfold bind at 1.
    match goal with
    | |- context [emit ?ev ?v] =>
        pose proof (count_emit is_cuda ev v) as Hs;
        change (emit ev v) with (Return tt, snd (emit ev v))
    end.
    cbv iota beta. simpl in Hs.
    match goal with
    | |- context [train_loop E a sched epoch true n rest ?j ?u ?r ?v] =>
        specialize (IH j u r v)
    end.
    destruct rest; simpl in *; lia.
Qed.

Lemma train_epoch_transfers a t ld sched epoch w :
  batches ld <> [] ->
  (count is_cuda w
   < count is_cuda (snd (train_epoch E a t ld sched epoch true w)))%nat.
Proof.
  intros Hne. unfold train_epoch.
  rewrite (bind_Return _ _ _ _ _ (timer_run E w)).
  unfold bind at 1.
  match goal with
  | |- context [train_loop E a sched epoch true ?n ?bs ?i ?u ?r ?v] =>
      pose proof (train_loop_transfers a sched epoch n bs i u r v) as H;
      destruct (train_loop E a sched epoch true n bs i u r v)
        as [[[t1 rl] | e] w1]
  end.
  - cbn [snd] in H.
    match goal with
    | |- (_ < count _ (snd (?m w1)))%nat =>
        assert (Hq : silent is_cuda m) by quiet
    end.
    rewrite (silent_count _ _ _ Hq).
    destruct (batches ld); [congruence |]. unfold count in *. simpl in *. lia.
  - cbn [snd] in *.
    destruct (batches ld); [congruence |]. unfold count in *. simpl in *. lia.
Qed.

End TransferFacts.

(** * The claims *)

(** ** Evaluator *)

(** C1 (defect of the code).  The claim wants [eval_epoch] to return the
    accuracy [correct / total].  The batch loop does count the arg-max
    matches of every batch, but the function then concatenates the list
    [y_pred], which nothing ever appends to: once [torch.cat] rejects the
    empty list, as PyTorch does, [eval_epoch] raises for every model and
    loader and returns no accuracy. *)
Theorem eval_epoch_never_returns
    {state_dict optim batch : Type} (E : framework state_dict optim batch)
    (model : state_dict) (ld : loader batch) (uc : bool) (split : string)
    (w : world) (e0 : exn) :
  torch_cat E [] = Raise e0 ->
  (forall r, fst (eval_epoch E model ld uc split w) <> Return r) /\
  (forall c w1,
      eval_loop E model (batches ld) 0
        {| trace := trace w; dirs := dirs w; ticks := S (ticks w) |}
      = (Return c, w1) ->
      (exists hits,
          Forall2 (fun b h => batch_hits E model b = Return h)
            (batches ld) hits /\
          c = fold_left Z.add hits 0) /\
      fst (eval_epoch E model ld uc split w) = Raise e0).
Proof.
  intros Hcat. split.
  - intros r. now apply (eval_epoch_fails E model ld uc split e0).
  - intros c w1 Hloop. split.
    + now apply eval_loop_counts in Hloop.
    + now rewrite (eval_epoch_raises E _ _ uc split _ _ _ _ Hcat Hloop).
Qed.

(** Three graphs, two of them classified correctly: the loop counts 2 and
    the call raises. *)
Lemma eval_epoch_never_returns_witness :
  torch_cat Toy.pytorch [] = Raise RuntimeError /\
  fst (eval_epoch Toy.pytorch 0 Toy.three false "Val" Toy.w0)
  = Raise RuntimeError.
Proof.
  split; [reflexivity |].
  exact (proj2 (proj2 (eval_epoch_never_returns Toy.pytorch 0 Toy.three
                         false "Val" Toy.w0 RuntimeError eq_refl)
                  2 {| trace := [EvCuda]; dirs := []; ticks := 1 |}
                  eq_refl)).
Defined.

(** C8 (defect of the code).  The claim wants the loss [0 / n = 0.0]
    returned for every non-empty split.  The running loss does stay at
    zero, but with PyTorch's [torch.cat] the call raises before the
    division: no loss is returned, whatever the model and the labels. *)
Theorem eval_epoch_returns_no_loss
    {state_dict optim batch : Type} (E : framework state_dict optim batch)
    (model : state_dict) (ld : loader batch) (uc : bool) (split : string)
    (w : world) (e0 : exn) :
  torch_cat E [] = Raise e0 ->
  dataset_len ld <> 0 ->
  forall score loss w',
    eval_epoch E model ld uc split w <> (Return (score, loss), w').
Proof.
  intros Hcat _ score loss w' H.
  apply (eval_epoch_fails E model ld uc split e0 Hcat w (score, loss)).
  now rewrite H.
Qed.

(** The split of three graphs: no score and no loss come back. *)
Lemma eval_epoch_returns_no_loss_witness :
  dataset_len Toy.three <> 0 /\
  forall score loss w',
    eval_epoch Toy.pytorch 0 Toy.three false "Val" Toy.w0
    <> (Return (score, loss), w').
Proof.
  assert (H : dataset_len Toy.three <> 0) by discriminate.
  split; [exact H |].
  exact (eval_epoch_returns_no_loss Toy.pytorch 0 Toy.three false "Val"
           Toy.w0 RuntimeError eq_refl H).
Defined.

(** C9.  [eval_epoch] never reads [use_cuda]: the calls with [True] and
    with [False] are the same computation; every pass of its loop begins
    with [batch.cuda()], so a non-empty loader is transferred also under
    [use_cuda = False], and a loop that returns has transferred every
    batch.  [train_epoch] transfers nothing under [use_cuda = False] and
    does transfer under [use_cuda = True]. *)
Theorem eval_epoch_ignores_use_cuda
    {state_dict optim batch : Type} (E : framework state_dict optim batch)
    (model : state_dict) (ld : loader batch) (split : string) (w : world)
    (a : namespace) (t : trainer state_dict optim) (sched : Z -> Q)
    (epoch : Z) :
  eval_epoch E model ld true split w = eval_epoch E model ld false split w /\
  (batches ld <> [] ->
   forall uc,
     (count is_cuda w
      < count is_cuda (snd (eval_epoch E model ld uc split w)))%nat) /\
  (forall uc c w1,
      eval_loop E model (batches ld) 0
        {| trace := trace w; dirs := dirs w; ticks := S (ticks w) |}
      = (Return c, w1) ->
      count is_cuda (snd (eval_epoch E model ld uc split w))
      = (count is_cuda w + length (batches ld))%nat) /\
  count is_cuda (snd (train_epoch E a t ld sched epoch false w))
  = count is_cuda w /\
  (batches ld <> [] ->
   (count is_cuda w
    < count is_cuda (snd (train_epoch E a t ld sched epoch true w)))%nat).
Proof.
  split; [reflexivity |]. split; [| split; [| split]].
  - intros Hne uc. rewrite eval_epoch_transfers.
    match goal with
    | |- (_ < count _ (snd (eval_loop E model ?bs ?c ?v)))%nat =>
        pose proof (eval_loop_transfers E model bs c v) as H
    end.
    destruct (batches ld); [congruence |].
    unfold count in *. simpl in *. lia.
  - intros uc c w1 H. rewrite eval_epoch_transfers, H. cbn [snd].
    now rewrite (eval_loop_transfers_all E _ _ _ _ _ _ H).
  - apply silent_count. apply silent_train_epoch; [discriminate |].
    reflexivity.
  - apply train_epoch_transfers.
Qed.

(** ** Run controller *)

(** C2.  The record after lines 320-324 differs from the record before if
    and only if the validation score is strictly greater than the best
    one; then it holds the score, the loss, the epoch and the snapshot; a
    score equal to the best one leaves it as it was.  Every pass of the
    epoch loop that returns has updated its record this way, from the
    score and loss its validation call returned. *)
Theorem best_checkpoint_strict_update
    {state_dict optim batch : Type} (E : framework state_dict optim batch)
    (b : checkpoint state_dict) (epoch : Z) (val_score val_loss : Q)
    (weights : state_dict) :
  (track_best b epoch val_score val_loss weights <> b
   <-> (best_val_score b < val_score)%Q) /\
  ((best_val_score b < val_score)%Q ->
   track_best b epoch val_score val_loss weights
   = {| best_val_score := val_score; best_val_loss := Finite val_loss;
        best_epoch := epoch; best_weights := Some weights |}) /\
  ((val_score == best_val_score b)%Q ->
   track_best b epoch val_score val_loss weights = b) /\
  (forall train_ld val_ld steps st w st' w',
      epoch_body E train_ld val_ld steps epoch st w = (Return st', w') ->
      exists model score loss w1 w2,
        eval_epoch E model val_ld (use_cuda (args st)) "Val" w1
        = (Return (score, loss), w2) /\
        best st' = track_best (best st) epoch score loss model).
Proof.
  unfold track_best. split; [| split; [| split]].
  - destruct (Qltb (best_val_score b) val_score) eqn:Hlt.
    + apply Qltb_lt in Hlt. split; [now intros _ |].
      intros _ Heq. rewrite <- Heq in Hlt. simpl in Hlt.
      now apply Qlt_irrefl in Hlt.
    + split; [now intros H |]. intros H.
      apply Qltb_true_iff in H. congruence.
  - intros H. apply Qltb_true_iff in H. now rewrite H.
  - intros H. destruct (Qltb (best_val_score b) val_score) eqn:Hlt;
      [| reflexivity].
    apply Qltb_lt in Hlt. rewrite H in Hlt. now apply Qlt_irrefl in Hlt.
  - intros train_ld val_ld steps st w st' w' H.
    destruct (epoch_body_inv E _ _ _ _ _ _ _ _ H)
      as (model & vs & vl & w1 & w2 & He & Hb & _).
    now exists model, vs, vl, w1, w2.
Qed.

(** ** Config loader *)

(** C6.  Whatever the framework, the directories that exist and the
    outcome of every [os.makedirs], two calls of [load_args] on the same
    parsed options both return, with the same output path: the empty
    string, or the hyperparameters joined in their fixed order. *)
Theorem outdir_deterministic
    {sd1 o1 b1 sd2 o2 b2 : Type} (float_repr : Q -> string)
    (E1 : framework sd1 o1 b1) (E2 : framework sd2 o2 b2)
    (parsed : options) (w1 w2 : world) :
  exists a1 a2 w1' w2',
    load_args float_repr E1 parsed w1 = (Return a1, w1') /\
    load_args float_repr E2 parsed w2 = (Return a2, w2') /\
    outdir (opts a1) = outdir (opts a2) /\
    outdir (opts a1)
    = (if String.eqb (outdir parsed) "" then ""
       else derived_outdir float_repr parsed).
Proof.
  destruct (load_args_loaded float_repr E1 parsed w1) as (a1 & w1' & H1 & ->).
  destruct (load_args_loaded float_repr E2 parsed w2) as (a2 & w2' & H2 & ->).
  exists (loaded float_repr E1 parsed), (loaded float_repr E2 parsed), w1', w2'.
  split; [exact H1 |]. split; [exact H2 |]. simpl.
  destruct (String.eqb (outdir parsed) "") eqn:Hout; [| now split].
  apply String.eqb_eq in Hout. now split.
Qed.

(** ** Trainer *)




(** ** Run controller at its ends *)

(** C5 (defect of the code).  The claim wants a run of zero epochs to
    finish cleanly.  The loop is skipped, the log stays empty and the
    record stays the sentinel, as claimed; but the restore step then reads
    [best_weights], a name only the improvement branch binds, and [main]
    raises [UnboundLocalError]. *)
Theorem main_zero_epochs
    {state_dict optim batch : Type} (float_repr : Q -> string)
    (E : framework state_dict optim batch) (parsed : options) (w : world) :
  epochs parsed = 0 ->
  warmup parsed
  * Z.of_nat (length (batches (train_loader E (loaded float_repr E parsed))))
  <> 0 ->
  exists st w1,
    main_loop float_repr E parsed w = (Return st, w1) /\
    logs st = empty_logs /\
    best st = sentinel /\
    fst (main float_repr E parsed w) = Raise UnboundLocalError.
Proof.
  intros He Hz.
  destruct (main_loop_enters float_repr E parsed w Hz)
    as (st0 & w0 & steps & Hloop & _ & Hb & Hl & _).
  rewrite He in Hloop. simpl in Hloop.
  exists st0, w0. split; [exact Hloop |]. split; [exact Hl |].
  split; [exact Hb |].
  unfold main. rewrite (bind_Return _ _ _ _ _ Hloop).
  apply main_finish_unbound. now rewrite Hb.
Qed.

Lemma main_zero_epochs_witness :
  fst (main Toy.repr Toy.pytorch (Toy.cmd 0 (3 # 10000) "") Toy.w0)
  = Raise UnboundLocalError.
Proof.
  destruct (main_zero_epochs Toy.repr Toy.pytorch (Toy.cmd 0 (3 # 10000) "")
              Toy.w0 eq_refl) as (st & w1 & _ & _ & _ & H).
  - discriminate.
  - exact H.
Defined.

(** C10.  When the epoch loop of [main] has returned, [best_weights] is
    unbound exactly if no logged validation score exceeds 0; in that case,
    and so in particular after zero epochs, [main] raises
    [UnboundLocalError] at the restore step; otherwise the name is bound
    and the restore step has a snapshot to load. *)
Theorem restore_needs_improvement
    {state_dict optim batch : Type} (float_repr : Q -> string)
    (E : framework state_dict optim batch) (parsed : options) (w : world)
    (st : run_state state_dict optim batch) (w1 : world) :
  main_loop float_repr E parsed w = (Return st, w1) ->
  (best_weights (best st) = None
   <-> Forall (fun v => v <= 0)%Q (log_val_score (logs st))) /\
  (Forall (fun v => v <= 0)%Q (log_val_score (logs st)) ->
   fst (main float_repr E parsed w) = Raise UnboundLocalError) /\
  (epochs parsed <= 0 ->
   fst (main float_repr E parsed w) = Raise UnboundLocalError) /\
  (Exists (fun v => 0 < v)%Q (log_val_score (logs st)) ->
   exists weights, best_weights (best st) = Some weights).
Proof.
  intros H. destruct (main_loop_tracked float_repr E _ _ _ _ H)
    as (Hpos & Hnone & Hsome).
  assert (Hiff : best_weights (best st) = None
                 <-> Forall (fun v => v <= 0)%Q (log_val_score (logs st))).
  { split; [now intros Hn; apply Hnone |].
    intros Hall. destruct (best_weights (best st)) eqn:Hw; [| reflexivity].
    assert (Hex : Exists (fun v => 0 < v)%Q (log_val_score (logs st)))
      by now apply Hsome.
    apply Exists_exists in Hex. destruct Hex as (v & Hin & Hv).
    rewrite Forall_forall in Hall. specialize (Hall v Hin).
    exfalso. apply (Qlt_irrefl 0). eapply Qlt_le_trans; eassumption. }
  assert (Hraise : Forall (fun v => v <= 0)%Q (log_val_score (logs st)) ->
                   fst (main float_repr E parsed w) = Raise UnboundLocalError).
  { intros Hall. unfold main. rewrite (bind_Return _ _ _ _ _ H).
    apply main_finish_unbound. now apply Hiff. }
  split; [exact Hiff |]. split; [exact Hraise |]. split.
  - intros He. apply Hraise.
    destruct (main_loop_inv float_repr E _ _ _ _ H)
      as (st0 & w0 & steps & Hloop & _ & _ & _ & Hl & _).
    unfold range in Hloop.
    replace (Z.to_nat (epochs parsed)) with 0%nat in Hloop by lia.
    simpl in Hloop. injection Hloop as <- _. rewrite Hl. constructor.
  - intros Hex. destruct (best_weights (best st)) eqn:Hw; [now eexists |].
    apply Exists_exists in Hex. destruct Hex as (v & Hin & Hv).
    destruct (Hnone eq_refl) as [_ Hall].
    rewrite Forall_forall in Hall. specialize (Hall v Hin).
    exfalso. apply (Qlt_irrefl 0). eapply Qlt_le_trans; eassumption.
Qed.

(** Zero epochs under PyTorch's [torch.cat], and two epochs whose
    validation score is 0 under a [torch.cat] that accepts the empty
    list. *)
Lemma restore_needs_improvement_witness :
  fst (main Toy.repr Toy.pytorch (Toy.cmd 0 (3 # 10000) "") Toy.w0)
  = Raise UnboundLocalError /\
  fst (main Toy.repr Toy.lenient_missed (Toy.cmd 2 (3 # 10000) "") Toy.w0)
  = Raise UnboundLocalError.
Proof.
  split.
  - eassert (H : main_loop Toy.repr Toy.pytorch (Toy.cmd 0 (3 # 10000) "")
                   Toy.w0 = (Return _, _)) by (vm_compute; reflexivity).
    apply (proj1 (proj2 (restore_needs_improvement _ _ _ _ _ _ H))).
    constructor.
  - eassert (H : main_loop Toy.repr Toy.lenient_missed
                   (Toy.cmd 2 (3 # 10000) "") Toy.w0 = (Return _, _))
      by (vm_compute; reflexivity).
    apply (proj1 (proj2 (restore_needs_improvement _ _ _ _ _ _ H))).
    repeat constructor; discriminate.
Defined.

(** C7 (defect of the code).  The claim wants a run without an output
    directory to write nothing and still to return its metrics.  It writes
    none of the three files, as claimed, and the persistence block is then
    a no-op that returns; but every path to the [return] of [main] passes
    the final call of [eval_epoch], which raises under PyTorch's
    [torch.cat]: the run does not complete. *)
Theorem main_without_outdir
    {state_dict optim batch : Type} (float_repr : Q -> string)
    (E : framework state_dict optim batch) (parsed : options) (w : world)
    (e0 : exn) :
  torch_cat E [] = Raise e0 ->
  outdir parsed = "" ->
  (forall r, fst (main float_repr E parsed w) <> Return r) /\
  filter is_artifact (trace (snd (main float_repr E parsed w)))
  = filter is_artifact (trace w) /\
  (forall (st : run_state state_dict optim batch) test_score test_loss
          total_time v,
      save_logs (args st) = false ->
      persist st test_score test_loss total_time v = (Return tt, v)).
Proof.
  intros Hcat Hout. split; [| split].
  - intros r. now apply (fails_main float_repr E parsed e0).
  - now apply silent_main_artifact.
  - intros st ts tl tt v Hs. unfold persist. now rewrite Hs.
Qed.

(** One epoch, no output directory. *)
Lemma main_without_outdir_witness :
  (forall r,
      fst (main Toy.repr Toy.pytorch (Toy.cmd 1 (3 # 10000) "") Toy.w0)
      <> Return r) /\
  filter is_artifact
    (trace (snd (main Toy.repr Toy.pytorch (Toy.cmd 1 (3 # 10000) "")
                   Toy.w0)))
  = [].
Proof.
  destruct (main_without_outdir Toy.repr Toy.pytorch
              (Toy.cmd 1 (3 # 10000) "") Toy.w0 RuntimeError eq_refl eq_refl)
    as (H1 & H2 & _).
  split; [exact H1 | exact H2].
Defined.

(** ** Multi-run aggregator *)

(** C4, as the claim states it, fails twice.  Under PyTorch's [torch.cat]
    the first run already raises: [main] is called once and no summary is
    written.  And the statistics handed to [results_to_file] do not depend
    on the collected validation losses: two tallies that differ only there
    give the same eight values, none of them the mean of the validation
    losses. *)
Lemma aggregator_counterexample :
  let out := script Toy.repr Toy.pytorch (Toy.cmd 1 (3 # 10000) "") Toy.w0 in
  let acc v :=
    {| test_scores := [1 # 2; 1 # 2]%Q; test_losses := [0; 0]%Q; vals := v;
       total_time_list := [3; 3]%Q;
       avg_time_list := [Finite 1; Finite 1] |} in
  fst out = Raise RuntimeError /\
  count is_seed (snd out) = 1%nat /\
  count is_summary (snd out) = 0%nat /\
  statistics Toy.pytorch (acc [Finite (1 # 4); Finite (1 # 4)])
  = statistics Toy.pytorch (acc [Inf; Inf]) /\
  ~ In (np_mean Toy.pytorch [Finite (1 # 4); Finite (1 # 4)])
      (statistics Toy.pytorch (acc [Finite (1 # 4); Finite (1 # 4)])).
Proof.
  cbv zeta. repeat split; try reflexivity.
  vm_compute. intros H.
  repeat (destruct H as [H | H]; [discriminate |]). exact H.
Qed.

(** C4, amended.  The block loops over [range(10)]; a loop that returns
    has called [main] exactly ten times, each call returning, and has
    appended the five results of each run to their lists, in order.  The
    block then reloads the arguments and hands [results_to_file] the mean
    and the standard deviation of four of the lists: test scores, test
    losses, total times and average epoch times.  The validation losses
    are collected but take no part in the summary. *)
Theorem ten_runs_then_statistics
    {state_dict optim batch : Type} (float_repr : Q -> string)
    (E : framework state_dict optim batch) (parsed : options) (w : world)
    (acc : tally) (w1 : world) :
  runs float_repr E parsed (range 10) empty_tally w = (Return acc, w1) ->
  count is_seed w1 = (count is_seed w + 10)%nat /\
  (exists rs : list outcome,
      length rs = 10%nat /\
      Forall (fun r => exists v v', main float_repr E parsed v = (Return r, v'))
        rs /\
      test_scores acc = map out_test_score rs /\
      test_losses acc = map out_test_loss rs /\
      vals acc = map out_val rs /\
      total_time_list acc = map out_total_time rs /\
      avg_time_list acc = map out_avg_time rs) /\
  exists w2,
    script float_repr E parsed w = (Return tt, w2) /\
    count is_seed w2 = (count is_seed w + 10)%nat /\
    filter is_summary (trace w2)
    = (filter is_summary (trace w)
       ++ [EvResultsToFile (loaded float_repr E parsed)
             [ np_mean E (map Finite (test_scores acc));
               np_std E (map Finite (test_scores acc));
               np_mean E (map Finite (test_losses acc));
               np_std E (map Finite (test_losses acc));
               np_mean E (map Finite (total_time_list acc));
               np_std E (map Finite (total_time_list acc));
               np_mean E (avg_time_list acc);
               np_std E (avg_time_list acc) ]])%list.
Proof.
  intros H.
  destruct (runs_returns float_repr E _ _ _ _ _ _ H)
    as (Hseed & Hsum & rs & Hlen & Hall & Hlists).
  change (length (range 10)) with 10%nat in Hseed, Hlen.
  cbn [empty_tally test_scores test_losses vals total_time_list
       avg_time_list app] in Hlists.
  split; [exact Hseed |]. split; [now exists rs |].
  destruct (load_args_loaded float_repr E parsed w1) as (a & w2 & Hw & ->).
  assert (Hq : forall p, (forall q, p (EvMakedirs q) = false) ->
                         filter p (trace w2) = filter p (trace w1)).
  { intros p Hp.
    change w2 with (snd (Return (loaded float_repr E parsed), w2)).
    rewrite <- Hw. now apply silent_load_args. }
  eexists. split.
  - unfold script. rewrite (bind_Return _ _ _ _ _ H).
    rewrite (bind_Return _ _ _ _ _ Hw). reflexivity.
  - split.
    + rewrite <- Hseed. unfold count. cbn [trace].
      rewrite filter_app, (Hq is_seed) by reflexivity.
      simpl. now rewrite app_nil_r.
    + cbn [trace]. rewrite filter_app, (Hq is_summary), Hsum by reflexivity.
      reflexivity.
Qed.

(** Ten runs of one epoch under a [torch.cat] that accepts the empty
    list. *)
Lemma ten_runs_then_statistics_witness :
  exists w2,
    script Toy.repr Toy.lenient (Toy.cmd 1 (3 # 10000) "") Toy.w0
    = (Return tt, w2) /\
    count is_seed w2 = 10%nat.
Proof.
  eassert (H : runs Toy.repr Toy.lenient (Toy.cmd 1 (3 # 10000) "")
                 (range 10) empty_tally Toy.w0 = (Return _, _))
    by (vm_compute; reflexivity).
  destruct (ten_runs_then_statistics _ _ _ _ _ _ H)
    as (_ & _ & w2 & Hs & Hc & _).
  exists w2. split; [exact Hs | exact Hc].
Defined.

(** * Further properties *)

(** ** Config loader *)

Lemma prefix_append (a b : string) : String.prefix a (a ++ b) = true.
Proof.
  induction a as [| ch a IH]; simpl.
  - now destruct b.
  - destruct (Ascii.ascii_dec ch ch); [exact IH | congruence].
Qed.

Lemma existsb_eqb_In (p : string) (ds : list string) :
  existsb (String.eqb p) ds = true <-> In p ds.
Proof.
  rewrite existsb_exists. split.
  - intros (q & Hin & Heq). apply String.eqb_eq in Heq. now subst.
  - intros Hin. exists p. split; [exact Hin | apply String.eqb_refl].
Qed.

Section LoaderFacts.

Context {state_dict optim batch : Type}.
Variable float_repr : Q -> string.
Variable E : framework state_dict optim batch.

Lemma ensure_dir_tt p w :
  ensure_dir E p w = (Return tt, snd (ensure_dir E p w)).
Proof.
  unfold ensure_dir. destruct (existsb _ _); [reflexivity |].
  now destruct (makedirs E p (dirs w)).
Qed.

(** The world [load_args] leaves: the guarded creation of every level. *)
Lemma load_args_world parsed w :
  snd (load_args float_repr E parsed w)
  = ensure_all E (levels float_repr parsed) w.
Proof.
  unfold load_args, levels.
  destruct (String.eqb (outdir parsed) ""); [reflexivity |].
  repeat rewrite (bind_Return _ _ _ _ _ (ensure_dir_tt _ _)).
  destruct (use_edge_attr parsed).
  - unfold bind at 1.
    rewrite (bind_Return _ _ _ _ _ (ensure_dir_tt _ _)).
    unfold ret at 1. cbv iota beta.
    repeat rewrite (bind_Return _ _ _ _ _ (ensure_dir_tt _ _)).
    reflexivity.
  - unfold bind at 1, ret at 1. cbv iota beta.
    repeat rewrite (bind_Return _ _ _ _ _ (ensure_dir_tt _ _)).
    reflexivity.
Qed.

Lemma load_args_run parsed w :
  load_args float_repr E parsed w
  = (Return (loaded float_repr E parsed),
     ensure_all E (levels float_repr parsed) w).
Proof.
  rewrite <- load_args_world.
  destruct (load_args_loaded float_repr E parsed w) as (a & w' & Hw & ->).
  now rewrite Hw.
Qed.

(** The innermost level is the output path. *)
Lemma levels_last parsed :
  outdir parsed <> "" ->
  last (levels float_repr parsed) "" = derived_outdir float_repr parsed.
Proof.
  intros Hne. apply String.eqb_neq in Hne.
  pose proof (load_args_yields float_repr E parsed
                {| trace := []; dirs := []; ticks := 0 |})
    as (a & w' & Hw & _ & _ & _ & Ho).
  rewrite Hne in Ho.
  unfold levels. rewrite Hne.
  unfold load_args in Hw. rewrite Hne in Hw.
  repeat rewrite (bind_Return _ _ _ _ _ (ensure_dir_tt _ _)) in Hw.
  destruct (use_edge_attr parsed).
  - unfold bind at 1 in Hw.
    rewrite (bind_Return _ _ _ _ _ (ensure_dir_tt _ _)) in Hw.
    unfold ret at 1 in Hw. cbv iota beta in Hw.
    repeat rewrite (bind_Return _ _ _ _ _ (ensure_dir_tt _ _)) in Hw.
    injection Hw as Ha _. rewrite <- Ha in Ho.
    cbn [opts] in Ho. apply (f_equal outdir) in Ho. exact Ho.
  - unfold bind at 1, ret at 1 in Hw. cbv iota beta in Hw.
    repeat rewrite (bind_Return _ _ _ _ _ (ensure_dir_tt _ _)) in Hw.
    injection Hw as Ha _. rewrite <- Ha in Ho.
    cbn [opts] in Ho. apply (f_equal outdir) in Ho. exact Ho.
Qed.

Lemma ensure_dir_present p w :
  In p (dirs w) -> ensure_dir E p w = (Return tt, w).
Proof.
  intros Hin. unfold ensure_dir.
  now rewrite (proj2 (existsb_eqb_In p (dirs w)) Hin).
Qed.

Lemma ensure_all_present ps w :
  (forall p, In p ps -> In p (dirs w)) -> ensure_all E ps w = w.
Proof.
  unfold ensure_all. induction ps as [| p ps IH]; intros H; simpl.
  - reflexivity.
  - rewrite ensure_dir_present by (apply H; now left).
    apply IH. intros q Hq. apply H. now right.
Qed.

Lemma ensure_dir_creating p w :
  creating E ->
  In p (dirs (snd (ensure_dir E p w))) /\
  incl (dirs w) (dirs (snd (ensure_dir E p w))).
Proof.
  intros Hc. unfold ensure_dir.
  destruct (existsb _ _) eqn:Hex.
  - apply existsb_eqb_In in Hex. split; [exact Hex | apply incl_refl].
  - destruct (Hc p (dirs w)) as (ds' & -> & Hin & Hincl). now split.
Qed.

Lemma ensure_all_creating ps :
  creating E ->
  forall w,
    (forall p, In p ps -> In p (dirs (ensure_all E ps w))) /\
    incl (dirs w) (dirs (ensure_all E ps w)).
Proof.
  intros Hc. unfold ensure_all.
  induction ps as [| p ps IH]; intros w; simpl.
  - split; [now intros p [] | apply incl_refl].
  - destruct (ensure_dir_creating p w Hc) as [Hp Hincl].
    destruct (IH (snd (ensure_dir E p w))) as [Hall Hincl'].
    split.
    + intros q [<- | Hq]; [now apply Hincl' | now apply Hall].
    + eapply incl_tran; eassumption.
Qed.

(** With every [os.makedirs] raising, each level that is missing is
    tried once and the directories stay as they were. *)
Lemma ensure_all_refused ps :
  (forall p ds, makedirs E p ds = None) ->
  forall w,
    dirs (ensure_all E ps w) = dirs w /\
    ticks (ensure_all E ps w) = ticks w /\
    trace (ensure_all E ps w)
    = (trace w
       ++ map EvMakedirs
            (filter (fun p => negb (existsb (String.eqb p) (dirs w))) ps))%list.
Proof.
  intros Hno. unfold ensure_all.
  induction ps as [| p ps IH]; intros w; simpl.
  - now rewrite app_nil_r.
  - destruct (IH (snd (ensure_dir E p w))) as (Hd & Ht & Htr).
    unfold ensure_dir in *.
    destruct (existsb (String.eqb p) (dirs w)) eqn:Hex; simpl in *.
    + now repeat split.
    + rewrite (Hno p (dirs w)) in *. simpl in *.
      rewrite Hd, Ht, Htr, <- app_assoc. now repeat split.
Qed.

End LoaderFacts.

(** X1.  On a file system where [os.makedirs] succeeds, [load_args]
    leaves every level of the output path in existence and removes
    nothing; a second call then returns the same namespace and changes
    nothing: no directory is created twice. *)
Theorem load_args_idempotent
    {state_dict optim batch : Type} (float_repr : Q -> string)
    (E : framework state_dict optim batch) (parsed : options) (w : world) :
  creating E ->
  let w1 := snd (load_args float_repr E parsed w) in
  (forall p, In p (levels float_repr parsed) -> In p (dirs w1)) /\
  (outdir parsed <> "" -> In (derived_outdir float_repr parsed) (dirs w1)) /\
  incl (dirs w) (dirs w1) /\
  load_args float_repr E parsed w1
  = (Return (loaded float_repr E parsed), w1).
Proof.
  intros Hc w1. unfold w1. rewrite load_args_world.
  destruct (ensure_all_creating E (levels float_repr parsed) Hc w)
    as [Hall Hincl].
  split; [exact Hall |]. split; [| split; [exact Hincl |]].
  - intros Hne. apply Hall.
    rewrite <- (levels_last float_repr E parsed Hne).
    assert (Hnil : levels float_repr parsed <> []).
    { unfold levels. apply String.eqb_neq in Hne. rewrite Hne.
      discriminate. }
    destruct (exists_last Hnil) as (l & x & ->).
    rewrite last_last. apply in_or_app. right. now left.
  - rewrite load_args_run. f_equal. now apply ensure_all_present.
Qed.

Lemma load_args_idempotent_witness :
  let parsed := Toy.cmd 1 (3 # 10000) "out" in
  let w1 := snd (load_args Toy.repr Toy.pytorch parsed Toy.w0) in
  length (dirs w1) = 5%nat /\
  load_args Toy.repr Toy.pytorch parsed w1
  = (Return (loaded Toy.repr Toy.pytorch parsed), w1).
Proof.
  intros parsed w1. split; [reflexivity |].
  assert (Hc : creating Toy.pytorch).
  { intros p ds. exists (p :: ds). split; [reflexivity |].
    split; [now left | now apply incl_tl, incl_refl]. }
  exact (proj2 (proj2 (proj2
           (load_args_idempotent Toy.repr Toy.pytorch parsed Toy.w0 Hc)))).
Defined.

(** X2.  When every [os.makedirs] raises, [load_args] still returns, with
    [save_logs] set and the derived path stored: each missing level was
    tried once, in order, and the directories are as before. *)
Theorem load_args_swallows_failures
    {state_dict optim batch : Type} (float_repr : Q -> string)
    (E : framework state_dict optim batch) (parsed : options) (w : world) :
  (forall p ds, makedirs E p ds = None) ->
  outdir parsed <> "" ->
  exists a w1,
    load_args float_repr E parsed w = (Return a, w1) /\
    save_logs a = true /\
    outdir (opts a) = derived_outdir float_repr parsed /\
    dirs w1 = dirs w /\
    trace w1
    = (trace w
       ++ map EvMakedirs
            (filter (fun p => negb (existsb (String.eqb p) (dirs w)))
               (levels float_repr parsed)))%list.
Proof.
  intros Hno Hne.
  destruct (ensure_all_refused E (levels float_repr parsed) Hno w)
    as (Hd & _ & Htr).
  eexists _, _. split; [apply load_args_run |].
  apply String.eqb_neq in Hne. simpl. rewrite Hne. now repeat split.
Qed.

Lemma load_args_swallows_failures_witness :
  exists a w1,
    load_args Toy.repr read_only (Toy.cmd 1 (3 # 10000) "out") Toy.w0
    = (Return a, w1) /\
    save_logs a = true /\ dirs w1 = [] /\ length (trace w1) = 5%nat.
Proof.
  destruct (load_args_swallows_failures Toy.repr read_only
              (Toy.cmd 1 (3 # 10000) "out") Toy.w0)
    as (a & w1 & Hw & Hs & _ & Hd & Ht).
  - reflexivity.
  - discriminate.
  - exists a, w1. split; [exact Hw |]. split; [exact Hs |].
    split; [exact Hd |]. rewrite Ht. reflexivity.
Defined.

(** X3.  [load_args] rewrites no option but [outdir]: putting the parsed
    output directory back gives the parsed options.  The stored path
    starts with the parsed output directory, and [save_logs] is set
    exactly when the stored path is not empty. *)
Theorem load_args_frame
    {state_dict optim batch : Type} (float_repr : Q -> string)
    (E : framework state_dict optim batch) (parsed : options) (w : world) :
  exists a w1,
    load_args float_repr E parsed w = (Return a, w1) /\
    set_outdir (outdir parsed) (opts a) = parsed /\
    String.prefix (outdir parsed) (outdir (opts a)) = true /\
    (save_logs a = true <-> outdir (opts a) <> "") /\
    batch_norm a = negb (layer_norm parsed) /\
    ticks w1 = ticks w.
Proof.
  eexists _, _. split; [apply load_args_run |].
  assert (Ht : forall ps v, ticks (ensure_all E ps v) = ticks v).
  { unfold ensure_all. induction ps as [| p ps IH]; intros v; simpl.
    - reflexivity.
    - rewrite IH. unfold ensure_dir. destruct (existsb _ _); [reflexivity |].
      now destruct (makedirs E p (dirs v)). }
  simpl. destruct (String.eqb (outdir parsed) "") eqn:Hout.
  - apply String.eqb_eq in Hout.
    split; [now destruct parsed |]. split; [rewrite Hout; reflexivity |].
    split; [split; [discriminate | congruence] |].
    split; [reflexivity | apply Ht].
  - apply String.eqb_neq in Hout.
    assert (Hd : outdir (set_outdir (derived_outdir float_repr parsed) parsed)
                 = outdir parsed
                   ++ ("/" ++ dataset parsed ++ "/seed"
                       ++ str_int (seed parsed)
                       ++ (if use_edge_attr parsed then "/edge_attr" else "")
                       ++ "/"
                       ++ match abs_pe parsed with
                          | None => "None"
                          | Some pe => pe ++ "_" ++ str_int (abs_pe_dim parsed)
                          end
                       ++ "/"
                       ++ hyper_dir float_repr parsed
                            (if layer_norm parsed then "LN" else "BN")))
      by reflexivity.
    split; [now destruct parsed |]. rewrite Hd.
    split; [apply prefix_append |].
    split; [| split; [reflexivity | apply Ht]].
    split; [intros _ | reflexivity].
    destruct (outdir parsed); [congruence | discriminate].
Qed.

(** ** Trainer *)

Section TrainerFacts.

Context {state_dict optim batch : Type}.
Variable E : framework state_dict optim batch.

(** The optimizer steps of one pass, in any epoch. *)
Lemma train_loop_steps a sched epoch uc n bs :
  forall i t rl w,
    let out := train_loop E a sched epoch uc n bs i t rl w in
    exists rs,
      (length rs <= length bs)%nat /\
      step_rates (trace (snd out)) = (step_rates (trace w) ++ rs)%list /\
      (forall r, fst out = Return r -> length rs = length bs) /\
      (warmup (opts a) <= epoch ->
       rs = repeat (rate t) (length rs) /\
       forall t' rl', fst out = Return (t', rl') -> rate t' = rate t).
Proof.
  induction bs as [| data rest IH]; intros i t rl w out; unfold out.
  - exists []. simpl. rewrite app_nil_r.
    split; [lia |]. split; [reflexivity |]. split; [reflexivity |].
    intros _. split; [reflexivity |].
    intros t' rl' Hx. now injection Hx as <- _.
  - rewrite train_loop_cons. cbv zeta.
    set (t1 := if epoch <? warmup (opts a)
               then set_rate (sched (epoch * n + i)) t else t).
    assert (Ht1 : warmup (opts a) <= epoch -> rate t1 = rate t).
    { intros He. unfold t1.
      now rewrite (proj2 (Z.ltb_ge epoch (warmup (opts a))) He). }
    clearbody t1.
    set (w1 := if uc then snd (emit EvCuda w) else w).
    assert (Hw : step_rates (trace w1) = step_rates (trace w)).
    { unfold w1. destruct uc; [| reflexivity]. cbn [emit snd trace].
      rewrite step_rates_app. apply app_nil_r. }
    clearbody w1.
    destruct (if uc then batch_cuda E _ else Return _) as [d | e].
    + destruct (optim_step E _ _ _ d) as [[p m] loss].
      match goal with
      | |- context [train_loop E a sched epoch uc n rest ?j ?u ?q ?v] =>
          destruct (IH j u q v) as (rs & Hk & Hr & Hret & Hpost)
      end.
      exists (rate t1 :: rs). split; [simpl; lia |]. split; [| split].
      * rewrite Hr. cbn [emit snd trace].
        rewrite step_rates_app, Hw, <- app_assoc. reflexivity.
      * intros r Hf. simpl. f_equal. now apply (Hret r).
      * intros He. destruct (Hpost He) as [Hrep Hrate].
        cbn [rate] in Hrep, Hrate. rewrite (Ht1 He) in *. split.
        -- simpl. now rewrite <- Hrep.
        -- exact Hrate.
    + exists []. cbn [fst snd]. rewrite app_nil_r.
      repeat split; try easy. simpl. lia.
Qed.



End TrainerFacts.

(** X4.  [train_epoch] takes at most one optimizer step per batch, and
    exactly one per batch when it returns.  From the warmup count on it
    leaves the learning rate alone: every step runs at the rate the
    optimizer came with, and the optimizer returns with that rate. *)
Theorem train_epoch_steps
    {state_dict optim batch : Type} (E : framework state_dict optim batch)
    (a : namespace) (t : trainer state_dict optim) (ld : loader batch)
    (sched : Z -> Q) (epoch : Z) (uc : bool) (w : world) :
  let out := train_epoch E a t ld sched epoch uc w in
  exists rs,
    (length rs <= length (batches ld))%nat /\
    step_rates (trace (snd out)) = (step_rates (trace w) ++ rs)%list /\
    (forall r, fst out = Return r -> length rs = length (batches ld)) /\
    (warmup (opts a) <= epoch ->
     rs = repeat (rate t) (length rs) /\
     forall loss t', fst out = Return (loss, t') -> rate t' = rate t).
Proof.
  intros out. unfold out. rewrite train_epoch_run.
  match goal with
  | |- context [train_loop E a sched epoch uc ?n ?bs ?i ?u ?q ?v] =>
      destruct (train_loop_steps E a sched epoch uc n bs i u q v)
        as (rs & Hk & Hr & Hret & Hpost);
      destruct (train_loop E a sched epoch uc n bs i u q v)
        as [[[t1 rl] | e] w1]
  end; cbn [fst snd trace] in Hr, Hret, Hpost; exists rs.
  - split; [exact Hk |]. cbv zeta.
    destruct (dataset_len ld =? 0); cbn [fst snd trace].
    + split; [exact Hr |]. split; [intros r; discriminate |].
      intros He. split; [now apply Hpost | discriminate].
    + split; [exact Hr |]. split; [intros r _; now apply (Hret (t1, rl)) |].
      intros He. destruct (Hpost He) as [Hrep Hrate].
      split; [exact Hrep |]. intros loss t' H. injection H as _ <-.
      now apply (Hrate t1 rl).
  - cbn [fst snd]. split; [exact Hk |]. split; [exact Hr |].
    split; [discriminate |]. intros He.
    split; [now apply Hpost | discriminate].
Qed.




(** ** Evaluator *)

Section EvaluatorFacts.

Context {state_dict optim batch : Type}.
Variable E : framework state_dict optim batch.

(** One pass of the evaluation loop, spelled out. *)
Lemma eval_loop_cons model b rest c w :
  eval_loop E model (b :: rest) c w
  = match batch_hits E model b with
    | Return h => eval_loop E model rest (c + h) (snd (emit EvCuda w))
    | Raise e => (Raise e, snd (emit EvCuda w))
    end.
Proof.
  cbn [eval_loop]. unfold bind at 1, cuda, bind at 1, emit at 1, lift at 1.
  unfold batch_hits. cbn [snd emit].
  destruct (batch_cuda E b) as [b' | e]; [| reflexivity].
  unfold bind at 1, lift at 1.
  destruct (max_dim1 _) as [pred | e]; [| reflexivity].
  unfold bind at 1, lift at 1.
  now destruct (eq_sum _ _).
Qed.

(** The loop stops at the first batch that fails. *)
Lemma eval_loop_stops model pre b rest e :
  Forall (fun x => exists h, batch_hits E model x = Return h) pre ->
  batch_hits E model b = Raise e ->
  forall c w,
    eval_loop E model (pre ++ b :: rest) c w
    = (Raise e,
       {| trace := trace w ++ repeat EvCuda (S (length pre));
          dirs := dirs w; ticks := ticks w |}).
Proof.
  intros Hpre Hb. induction Hpre as [| x pre (h & Hx) _ IH]; intros c w.
  - simpl app. rewrite eval_loop_cons, Hb. reflexivity.
  - simpl app. rewrite eval_loop_cons, Hx, IH. cbn [emit snd trace dirs ticks].
    rewrite <- app_assoc. reflexivity.
Qed.

End EvaluatorFacts.

(** X7.  [eval_epoch] stops at the first batch whose transfer, arg-max or
    comparison fails: it raises that error, whatever [use_cuda] and
    [torch.cat] are, having transferred the batches up to that one and no
    later one.  On a machine without CUDA this is the first batch. *)
Theorem eval_epoch_stops_at_failure
    {state_dict optim batch : Type} (E : framework state_dict optim batch)
    (model : state_dict) (ld : loader batch) (uc : bool) (split : string)
    (w : world) (pre : list batch) (b : batch) (rest : list batch)
    (e : exn) :
  batches ld = (pre ++ b :: rest)%list ->
  Forall (fun x => exists h, batch_hits E model x = Return h) pre ->
  batch_hits E model b = Raise e ->
  eval_epoch E model ld uc split w
  = (Raise e,
     {| trace := trace w ++ repeat EvCuda (S (length pre));
        dirs := dirs w; ticks := S (ticks w) |}).
Proof.
  intros Hb Hpre He. unfold eval_epoch.
  rewrite (bind_Return _ _ _ _ _ (timer_run E w)).
  rewrite Hb.
  now rewrite (bind_Raise _ _ _ _ _
                 (eval_loop_stops E model pre b rest e Hpre He 0 _)).
Qed.

(** Without CUDA the evaluation of three graphs fails at its only batch,
    with the error of the transfer. *)
Lemma eval_epoch_stops_at_failure_witness :
  eval_epoch cpu_only 0 Toy.three false "Val" Toy.w0
  = (Raise AssertionError, {| trace := [EvCuda]; dirs := []; ticks := 1 |}).
Proof.
  refine (eval_epoch_stops_at_failure cpu_only 0 Toy.three false "Val" Toy.w0
            [] _ [] AssertionError eq_refl _ eq_refl).
  constructor.
Defined.

(** ** Run controller *)

Section ControllerFacts.

Context {state_dict optim batch : Type}.
Variable float_repr : Q -> string.
Variable E : framework state_dict optim batch.

Lemma loaded_field {A} (f : options -> A) parsed :
  (forall p, f (set_outdir p parsed) = f parsed) ->
  f (opts (loaded float_repr E parsed)) = f parsed.
Proof. intros H. simpl. destruct (String.eqb _ _); [reflexivity | apply H]. Qed.

(** [main] up to its epoch loop, spelled out. *)
Lemma main_loop_run parsed w :
  main_loop float_repr E parsed w
  = let a := loaded float_repr E parsed in
    let d := warmup parsed * Z.of_nat (length (batches (train_loader E a))) in
    let v := after_setup float_repr E parsed w in
    if d =? 0 then (Raise ZeroDivisionError, v)
    else
      epoch_loop E (train_loader E a) (val_loader E a)
        (lr parsed / inject_Z d)%Q (range (epochs parsed))
        (start_state float_repr E parsed (clock E (ticks v))
           (clock E (S (ticks v))))
        {| trace := trace v; dirs := dirs v; ticks := S (S (ticks v)) |}.
Proof.
  unfold main_loop.
  rewrite (bind_Return _ _ _ _ _ (load_args_run float_repr E parsed w)).
  unfold after_setup. rewrite load_args_world.
  set (v := ensure_all E (levels float_repr parsed) w).
  set (a := loaded float_repr E parsed).
  cbv zeta. unfold bind at 1, emit at 1. cbv iota beta.
  replace (seed (opts a)) with (seed parsed)
    by (symmetry; now apply loaded_field).
  cbn [opts update_opts].
  replace (lr (set_total_params _ (opts a))) with (lr parsed)
    by (symmetry; now apply (loaded_field lr)).
  replace (warmup (set_total_params _ (opts a))) with (warmup parsed)
    by (symmetry; now apply (loaded_field warmup)).
  replace (epochs (set_total_params _ (opts a))) with (epochs parsed)
    by (symmetry; now apply (loaded_field epochs)).
  change (use_cuda a) with (cuda_is_available E).
  unfold py_div, start_state. fold a.
  replace (lr (opts (update_opts
                       (set_total_params
                          (count_parameters E (GraphTransformer E a))) a)))
    with (lr parsed) by (symmetry; now apply (loaded_field lr)).
  destruct (cuda_is_available E);
    unfold bind at 1; [unfold emit at 1 | unfold ret at 1]; cbv iota beta;
    cbn [trace dirs ticks]; destruct (_ =? 0);
    try (unfold bind, raise; rewrite <- ?app_assoc; reflexivity);
    unfold bind at 1, ret at 1; cbv iota beta;
    unfold bind at 1, timer at 1; cbv iota beta;
    unfold bind at 1, timer at 1; cbv iota beta;
    cbn [trace dirs ticks]; rewrite <- ?app_assoc; reflexivity.
Qed.

(** What the setup adds to the trace is invisible to [p]. *)
Lemma after_setup_quiet p parsed w :
  (forall q, p (EvMakedirs q) = false) ->
  (forall x, p (EvSeed x) = false) ->
  p EvModelCuda = false ->
  filter p (trace (after_setup float_repr E parsed w)) = filter p (trace w).
Proof.
  intros Hd Hs Hm. unfold after_setup. cbn [trace].
  rewrite filter_app, (silent_load_args float_repr E p parsed Hd w).
  simpl. rewrite Hs.
  destruct (cuda_is_available E); simpl; rewrite ?Hm; apply app_nil_r.
Qed.

Lemma after_setup_ticks parsed w :
  ticks (after_setup float_repr E parsed w) = ticks w.
Proof.
  unfold after_setup. cbn [ticks]. rewrite load_args_world.
  unfold ensure_all. generalize w.
  induction (levels float_repr parsed) as [| p ps IH]; intros v; simpl.
  - reflexivity.
  - rewrite IH. unfold ensure_dir. destruct (existsb _ _); [reflexivity |].
    now destruct (makedirs E p (dirs v)).
Qed.

Lemma count_steps w : count is_step w = length (step_rates (trace w)).
Proof.
  unfold count, step_rates. induction (trace w) as [| ev tr IH]; simpl.
  - reflexivity.
  - destruct ev; simpl; now rewrite ?IH.
Qed.

(** A computation that never returns leaves the world of its failure. *)
Lemma fails_bind_run {A B} (m : M A) (k : A -> M B) w :
  fails m ->
  exists x, m w = (Raise x, snd (m w)) /\
            bind m k w = (Raise x, snd (m w)).
Proof.
  intros Hf. unfold bind. specialize (Hf w).
  destruct (m w) as [[a | x] w']; cbn [fst snd] in *.
  - now elim (Hf a).
  - now exists x.
Qed.

Lemma silent_epoch_body_weak p train_ld val_ld steps epoch st :
  p EvCuda = false -> (forall r, p (EvOptimStep r) = false) ->
  silent p (epoch_body E train_ld val_ld steps epoch st).
Proof.
  intros Hc Hs. unfold epoch_body.
  apply silent_bind; [apply silent_timer | intros start].
  apply silent_bind; [now apply silent_train_epoch | intros [tl t]].
  apply silent_bind; [now apply silent_eval_epoch | intros [vs vl]].
  apply silent_bind; [now apply silent_eval_epoch | intros [ts tl']].
  destruct (_ >=? _); quiet.
Qed.

(** [train_epoch] steps the optimizer at most once per batch. *)
Lemma train_epoch_step_bound a t ld sched epoch uc w :
  (length (step_rates (trace (snd (train_epoch E a t ld sched epoch uc w))))
   <= length (step_rates (trace w)) + length (batches ld))%nat.
Proof.
  rewrite train_epoch_run.
  match goal with
  | |- context [train_loop E a sched epoch uc ?n ?bs ?i ?u ?q ?v] =>
      destruct (train_loop_steps E a sched epoch uc n bs i u q v)
        as (rs & Hk & Hr & _);
      destruct (train_loop E a sched epoch uc n bs i u q v)
        as [[[t1 rl] | e] w1]
  end; cbn [fst snd trace] in Hr.
  - cbv zeta. destruct (_ =? 0); cbn [snd trace];
      rewrite Hr, length_app; lia.
  - cbn [snd]. rewrite Hr, length_app. lia.
Qed.

(** Once [torch.cat] rejects the empty list, a pass of the epoch loop
    steps the optimizer at most once per training batch and fails. *)
Lemma epoch_body_steps train_ld val_ld steps epoch st w e0 :
  torch_cat E [] = Raise e0 ->
  (count is_step (snd (epoch_body E train_ld val_ld steps epoch st w))
   <= count is_step w + length (batches train_ld))%nat.
Proof.
  intros Hcat. unfold epoch_body.
  rewrite (bind_Return _ _ _ _ _ (timer_run E w)).
  set (w0 := {| trace := trace w; dirs := dirs w; ticks := S (ticks w) |}).
  match goal with
  | |- context [train_epoch E ?a ?t ?ld ?sc ?ep ?uc] =>
      pose proof (train_epoch_step_bound a t ld sc ep uc w0) as Hr;
      unfold bind at 1;
      destruct (train_epoch E a t ld sc ep uc w0) as [[[tl t1] | x] w1]
  end; cbn [fst snd] in *.
  - match goal with
    | |- context [bind ?m ?k w1] =>
        destruct (fails_bind_run m k w1) as (x & Hm & ->);
          [now apply eval_epoch_fails with e0 |];
          assert (Hq : silent is_step m)
            by (now apply silent_eval_epoch)
    end.
    cbn [snd]. rewrite (silent_count _ _ _ Hq), !count_steps.
    subst w0. cbn [trace] in Hr. lia.
  - rewrite !count_steps. subst w0. cbn [trace] in Hr. lia.
Qed.

End ControllerFacts.

(** X8.  With [--warmup 0], or a training loader without batches, [main]
    raises [ZeroDivisionError] at line 280, whatever the epoch count: the
    arguments are loaded, the generators seeded and the model moved, but no
    clock is read, no batch transferred and no optimizer step taken. *)
Theorem main_zero_division
    {state_dict optim batch : Type} (float_repr : Q -> string)
    (E : framework state_dict optim batch) (parsed : options) (w : world) :
  warmup parsed
  * Z.of_nat (length (batches (train_loader E (loaded float_repr E parsed))))
  = 0 ->
  main float_repr E parsed w
  = (Raise ZeroDivisionError, after_setup float_repr E parsed w) /\
  ticks (after_setup float_repr E parsed w) = ticks w /\
  count is_seed (after_setup float_repr E parsed w) = S (count is_seed w) /\
  count is_cuda (after_setup float_repr E parsed w) = count is_cuda w /\
  count is_step (after_setup float_repr E parsed w) = count is_step w.
Proof.
  intros Hz. split; [| split; [| split; [| split]]].
  - unfold main.
    assert (Hl : main_loop float_repr E parsed w
                 = (Raise ZeroDivisionError,
                    after_setup float_repr E parsed w)).
    { rewrite main_loop_run. cbv zeta. now rewrite Hz. }
    now rewrite (bind_Raise _ _ _ _ _ Hl).
  - apply after_setup_ticks.
  - unfold count, after_setup. cbn [trace].
    rewrite filter_app, (silent_load_args float_repr E is_seed parsed)
      by reflexivity.
    rewrite length_app. destruct (cuda_is_available E); simpl; lia.
  - unfold count. now rewrite after_setup_quiet.
  - unfold count. now rewrite after_setup_quiet.
Qed.

(** Five epochs over a training loader without batches. *)
Lemma main_zero_division_witness :
  fst (main Toy.repr no_batches (Toy.cmd 5 (3 # 10000) "") Toy.w0)
  = Raise ZeroDivisionError.
Proof.
  now rewrite (proj1 (main_zero_division Toy.repr no_batches
                        (Toy.cmd 5 (3 # 10000) "") Toy.w0 eq_refl)).
Defined.

(** X9.  Once [torch.cat] rejects the empty list, a call of [main] writes
    none of the three files, with or without an output directory, never
    restores a snapshot into the model, and steps the optimizer at most
    once per training batch: it does not get past its first epoch. *)
Theorem main_stops_in_first_epoch
    {state_dict optim batch : Type} (float_repr : Q -> string)
    (E : framework state_dict optim batch) (parsed : options) (w : world)
    (e0 : exn) :
  torch_cat E [] = Raise e0 ->
  let out := main float_repr E parsed w in
  filter is_artifact (trace (snd out)) = filter is_artifact (trace w) /\
  filter is_restore (trace (snd out)) = filter is_restore (trace w) /\
  (count is_step (snd out)
   <= count is_step w
      + length (batches (train_loader E (loaded float_repr E parsed))))%nat.
Proof.
  intros Hcat out.
  set (v := after_setup float_repr E parsed w).
  assert (Hv : forall p,
             (forall q, p (EvMakedirs q) = false) ->
             (forall x, p (EvSeed x) = false) -> p EvModelCuda = false ->
             filter p (trace v) = filter p (trace w))
    by (intros p; apply after_setup_quiet).
  remember (snd out) as wf eqn:Hwf.
  unfold out, main in Hwf. unfold bind at 1 in Hwf.
  rewrite main_loop_run in Hwf. cbv zeta in Hwf. fold v in Hwf.
  destruct (_ =? 0).
  - cbn [snd] in Hwf. subst wf. unfold count.
    rewrite !Hv by reflexivity. split; [reflexivity |].
    split; [reflexivity | lia].
  - destruct (range (epochs parsed)) as [| epoch rest].
    + cbn [epoch_loop] in Hwf. unfold ret at 1 in Hwf.
      unfold main_finish in Hwf.
      rewrite (bind_Return _ _ _ _ _ (timer_run E _)) in Hwf.
      rewrite (bind_Return _ _ _ _ _ (timer_run E _)) in Hwf.
      cbn [start_state best best_weights sentinel bind raise snd trace]
        in Hwf.
      subst wf. unfold count. cbn [trace].
      rewrite !Hv by reflexivity. split; [reflexivity |].
      split; [reflexivity | lia].
    + cbn [epoch_loop] in Hwf.
      match type of Hwf with
      | context [bind (epoch_body E ?tl ?vl ?sp ?ep ?s0) ?k ?u] =>
          destruct (fails_bind_run (epoch_body E tl vl sp ep s0) k u)
            as (x & Hm & Hb);
            [now apply fails_epoch_body with e0 |];
            pose proof (silent_epoch_body_weak E is_artifact tl vl sp ep s0
                          eq_refl (fun _ => eq_refl) u) as Ha;
            pose proof (silent_epoch_body_weak E is_restore tl vl sp ep s0
                          eq_refl (fun _ => eq_refl) u) as Hr;
            pose proof (epoch_body_steps E tl vl sp ep s0 u e0 Hcat) as Hk
      end.
      rewrite Hb in Hwf. cbn [snd] in Hwf. subst wf.
      cbn [snd trace] in *. rewrite Ha, Hr, !Hv by reflexivity.
      split; [reflexivity |]. split; [reflexivity |].
      unfold count in *. cbn [trace] in *.
      rewrite (Hv is_step) in Hk by reflexivity. exact Hk.
Qed.

(** Three epochs with an output directory under PyTorch's [torch.cat]:
    the directories are made, no file is written, and the optimizer has
    stepped twice, once per training batch. *)
Lemma main_stops_in_first_epoch_witness :
  let out := main Toy.repr Toy.pytorch (Toy.cmd 3 (3 # 10000) "out") Toy.w0 in
  filter is_artifact (trace (snd out)) = [] /\
  filter is_restore (trace (snd out)) = [] /\
  (count is_step (snd out) <= 2)%nat /\
  count is_step (snd out) = 2%nat /\
  count is_makedirs (snd out) = 5%nat.
Proof.
  intros out.
  destruct (main_stops_in_first_epoch Toy.repr Toy.pytorch
              (Toy.cmd 3 (3 # 10000) "out") Toy.w0 RuntimeError eq_refl)
    as (Ha & Hr & Hk).
  split; [exact Ha |]. split; [exact Hr |]. split; [exact Hk |].
  split; reflexivity.
Defined.

(** ** Multi-run aggregator *)

(** X10.  Once [torch.cat] rejects the empty list, the ten-run block
    ends with the failure of its first run: it raises the exception that
    run raised and stops in the world that run left, so [main] is called
    once and [results_to_file] never. *)
Theorem script_stops_at_first_run
    {state_dict optim batch : Type} (float_repr : Q -> string)
    (E : framework state_dict optim batch) (parsed : options) (w : world)
    (e0 : exn) :
  torch_cat E [] = Raise e0 ->
  exists x,
    main float_repr E parsed w = (Raise x, snd (main float_repr E parsed w)) /\
    script float_repr E parsed w
    = (Raise x, snd (main float_repr E parsed w)) /\
    count is_seed (snd (script float_repr E parsed w)) = S (count is_seed w) /\
    filter is_summary (trace (snd (script float_repr E parsed w)))
    = filter is_summary (trace w).
Proof.
  intros Hcat.
  assert (Hf : fails (main float_repr E parsed))
    by now apply fails_main with e0.
  unfold script. change (range 10) with (0 :: map Z.of_nat (seq 1 9)).
  cbn [runs].
  match goal with
  | |- context [bind (bind ?m ?k) ?k' w] =>
      destruct (fails_bind_run m k w Hf) as (x & Hm & Hb)
  end.
  exists x. split; [exact Hm |].
  rewrite (bind_Raise _ _ _ _ _ Hb). split; [reflexivity |]. cbn [snd].
  split; [apply main_seeds | apply silent_main_summary].
Qed.

Lemma script_stops_at_first_run_witness :
  script Toy.repr Toy.pytorch (Toy.cmd 3 (3 # 10000) "") Toy.w0
  = (Raise RuntimeError,
     snd (main Toy.repr Toy.pytorch (Toy.cmd 3 (3 # 10000) "") Toy.w0)).
Proof.
  destruct (script_stops_at_first_run Toy.repr Toy.pytorch
              (Toy.cmd 3 (3 # 10000) "") Toy.w0 RuntimeError eq_refl)
    as (x & Hm & Hs & _).
  assert (Hf : fst (main Toy.repr Toy.pytorch (Toy.cmd 3 (3 # 10000) "")
                      Toy.w0) = Raise RuntimeError) by reflexivity.
  rewrite Hm in Hf. cbn [fst] in Hf. injection Hf as <-. exact Hs.
Defined.

(** ** The epoch loop, pass by pass *)

Section LoopFacts.

Context {state_dict optim batch : Type}.
Variable float_repr : Q -> string.
Variable E : framework state_dict optim batch.

(** What one returning pass does to the locals of [main]. *)
Lemma epoch_body_effect train_ld val_ld steps epoch st w st' w' :
  epoch_body E train_ld val_ld steps epoch st w = (Return st', w') ->
  exists train_loss model val_score val_loss test_score dt,
    logs st'
    = {| log_train_loss := log_train_loss (logs st) ++ [train_loss];
         log_val_score := log_val_score (logs st) ++ [val_score];
         log_test_score := log_test_score (logs st) ++ [test_score] |} /\
    best st' = track_best (best st) epoch val_score val_loss model /\
    per_epoch_time st' = (per_epoch_time st ++ [dt])%list /\
    args st'
    = (if epoch =? 1
       then update_opts
              (set_memory_usage
                 (print_gpu_utilization E (device_id (opts (args st)))))
              (args st)
       else args st) /\
    last_epoch st'
    = (if epoch >=? warmup (opts (args st)) then last_epoch st + 1
       else last_epoch st) /\
    test_ld st' = test_ld st /\ t0 st' = t0 st /\
    start_time st' = start_time st.
Proof.
  intros H. unfold epoch_body in H.
  bound H as start w1 Hstart. bound H as [train_loss t] w2 Htrain.
  bound H as [val_score val_loss] w3 Hval.
  bound H as [test_score test_loss] w4 Htest.
  assert (Hw : forall b : bool,
             warmup (opts (if b then update_opts
                                       (set_memory_usage
                                          (print_gpu_utilization E
                                             (device_id (opts (args st)))))
                                       (args st)
                           else args st))
             = warmup (opts (args st))) by (now intros []).
  rewrite Hw in H.
  exists train_loss, (params t), val_score, val_loss, test_score.
  destruct (epoch >=? warmup (opts (args st)));
    bound H as stop w5 Hstop; injection H as <- _;
    eexists; cbn [logs best per_epoch_time args last_epoch test_ld
                    t0 start_time params set_rate];
    repeat split; reflexivity.
Qed.

(** An invariant indexed by the number of passes made. *)
Lemma epoch_loop_indexed
    (I : nat -> run_state state_dict optim batch -> Prop)
    train_ld val_ld steps :
  (forall k st w st' w',
      epoch_body E train_ld val_ld steps (Z.of_nat k) st w = (Return st', w')
      -> I k st -> I (S k) st') ->
  forall m k st w st' w',
    epoch_loop E train_ld val_ld steps (map Z.of_nat (seq k m)) st w
    = (Return st', w') ->
    I k st -> I (k + m)%nat st'.
Proof.
  intros Hstep. induction m as [| m IH]; intros k st w st' w' H Hi.
  - injection H as <- _. now rewrite Nat.add_0_r.
  - simpl in H. bound H as st1 w1 Hb.
    rewrite Nat.add_succ_r, <- Nat.add_succ_l.
    eapply IH; [exact H |]. eapply Hstep; eassumption.
Qed.

Lemma bookkept_step train_ld val_ld steps k st w st' w' :
  epoch_body E train_ld val_ld steps (Z.of_nat k) st w = (Return st', w') ->
  bookkept k st -> bookkept (S k) st'.
Proof.
  intros H (L1 & L2 & L3 & L4 & Hmax & Hnone & Hsome).
  destruct (epoch_body_effect _ _ _ _ _ _ _ _ H)
    as (tl & model & vs & vl & ts & dt & Hl & Hb & Hp & _).
  unfold bookkept. rewrite Hl, Hb, Hp. cbn [log_train_loss log_val_score
                                             log_test_score].
  rewrite !length_app, L1, L2, L3, L4. cbn [length].
  repeat (split; [lia |]).
  unfold track_best.
  destruct (Qltb (best_val_score (best st)) vs) eqn:Hlt.
  - apply Qltb_lt in Hlt. cbn [best_val_score best_weights best_epoch].
    split; [| split; [discriminate |]].
    + apply Forall_app. split.
      * eapply Forall_impl; [| exact Hmax]. intros v Hv. cbv beta in Hv.
        apply Qlt_le_weak. exact (Qle_lt_trans _ _ _ Hv Hlt).
      * constructor; [apply Qle_refl | constructor].
    + intros _. rewrite Nat2Z.id. split; [lia |]. split.
      * rewrite nth_error_app2 by lia. now rewrite L2, Nat.sub_diag.
      * rewrite firstn_app, L2, Nat.sub_diag, firstn_all2 by lia.
        cbn [firstn]. rewrite app_nil_r.
        eapply Forall_impl; [| exact Hmax]. intros v Hv. cbv beta in Hv.
        exact (Qle_lt_trans _ _ _ Hv Hlt).
  - apply Qltb_ge in Hlt. split; [| split; [exact Hnone |]].
    + apply Forall_app. split; [exact Hmax |]. now repeat constructor.
    + intros Hn. destruct (Hsome Hn) as (Hr & Hnth & Hfirst).
      assert (Hbe : (Z.to_nat (best_epoch (best st)) < k)%nat) by lia.
      split; [lia |]. split.
      * rewrite nth_error_app1 by lia. exact Hnth.
      * rewrite firstn_app, L2.
        replace (Z.to_nat (best_epoch (best st)) - k)%nat with 0%nat by lia.
        cbn [firstn]. now rewrite app_nil_r.
Qed.

Lemma options_after_field {A} (f : options -> A) parsed k :
  (forall p o, f (set_outdir p o) = f o) ->
  (forall n o, f (set_total_params n o) = f o) ->
  (forall n o, f (set_memory_usage n o) = f o) ->
  f (options_after float_repr E parsed k) = f parsed.
Proof.
  intros H1 H2 H3. unfold options_after. cbv zeta.
  destruct (2 <=? k)%nat; rewrite ?H3, H2; cbn [opts loaded];
    destruct (String.eqb _ _); rewrite ?H1; reflexivity.
Qed.

Lemma scheduled_step parsed train_ld val_ld steps k st w st' w' :
  epoch_body E train_ld val_ld steps (Z.of_nat k) st w = (Return st', w') ->
  scheduled float_repr E parsed k st ->
  scheduled float_repr E parsed (S k) st'.
Proof.
  intros H (Ha & Hl & Ht).
  destruct (epoch_body_effect _ _ _ _ _ _ _ _ H)
    as (tl & model & vs & vl & ts & dt & _ & _ & _ & Ha' & Hl' & Ht' & _).
  assert (He : (Z.of_nat k =? 1) = (k =? 1)%nat).
  { destruct (Nat.eqb_spec k 1) as [-> | Hk]; [reflexivity |].
    apply Z.eqb_neq. lia. }
  rewrite He in Ha'.
  unfold scheduled. rewrite Ha', Hl', Ht', Ha, Hl, Ht. cbn [opts].
  rewrite (options_after_field warmup), (options_after_field device_id)
    by reflexivity.
  split; [| split; [| reflexivity]].
  - unfold update_opts, options_after. cbv zeta.
    destruct k as [| [| k]]; reflexivity.
  - rewrite seq_S, map_app, filter_app, length_app. cbn [map filter].
    rewrite Z.geb_leb, Nat.add_0_l.
    destruct (warmup parsed <=? Z.of_nat k); cbn [length]; lia.
Qed.

(** The state the loop starts from. *)
Lemma start_state_kept parsed a b :
  bookkept 0 (start_state float_repr E parsed a b) /\
  scheduled float_repr E parsed 0 (start_state float_repr E parsed a b).
Proof.
  split.
  - unfold bookkept. cbn. repeat split; try constructor; easy.
  - unfold scheduled. cbn. now repeat split.
Qed.

Lemma main_loop_kept parsed w st w1 :
  main_loop float_repr E parsed w = (Return st, w1) ->
  bookkept (Z.to_nat (epochs parsed)) st /\
  scheduled float_repr E parsed (Z.to_nat (epochs parsed)) st.
Proof.
  intros H. rewrite main_loop_run in H. cbv zeta in H.
  destruct (_ =? 0); [discriminate |]. unfold range in H.
  match type of H with
  | epoch_loop _ _ _ _ _ (start_state _ _ _ ?a ?b) _ = _ =>
      destruct (start_state_kept parsed a b) as [Hb Hs]
  end.
  split.
  - exact (epoch_loop_indexed bookkept _ _ _
             (fun k s v s' v' => bookkept_step _ _ _ k s v s' v')
             _ 0%nat _ _ _ _ H Hb).
  - exact (epoch_loop_indexed (scheduled float_repr E parsed) _ _ _
             (fun k s v s' v' => scheduled_step parsed _ _ _ k s v s' v')
             _ 0%nat _ _ _ _ H Hs).
Qed.

End LoopFacts.

Lemma silent_run {A} p (m : M A) w a w' :
  silent p m -> m w = (Return a, w') ->
  filter p (trace w') = filter p (trace w).
Proof. intros Hs Hm. specialize (Hs w). now rewrite Hm in Hs. Qed.

Lemma filter_none {A} (f : A -> bool) (l : list A) :
  (forall x, In x l -> f x = false) -> filter f l = [].
Proof.
  induction l as [| x l IH]; intros H; simpl; [reflexivity |].
  rewrite (H x) by now left. apply IH. intros y Hy. apply H. now right.
Qed.

(** X11.  When the epoch loop of [main] has returned, each of the three
    logs and the list of epoch times has one entry per epoch; no logged
    validation score exceeds the best one; an unbound snapshot means the
    record is still the sentinel; and a bound snapshot belongs to the
    earliest epoch whose validation score is the best one: the score
    logged at [best_epoch] is the best score and every earlier one is
    strictly smaller. *)
Theorem checkpoint_is_earliest_best
    {state_dict optim batch : Type} (float_repr : Q -> string)
    (E : framework state_dict optim batch) (parsed : options) (w : world)
    (st : run_state state_dict optim batch) (w1 : world) :
  main_loop float_repr E parsed w = (Return st, w1) ->
  let k := Z.to_nat (epochs parsed) in
  length (log_train_loss (logs st)) = k /\
  length (log_val_score (logs st)) = k /\
  length (log_test_score (logs st)) = k /\
  length (per_epoch_time st) = k /\
  Forall (fun v => v <= best_val_score (best st))%Q
    (log_val_score (logs st)) /\
  (best_weights (best st) = None -> best st = sentinel) /\
  (forall weights,
      best_weights (best st) = Some weights ->
      0 <= best_epoch (best st) < epochs parsed /\
      nth_error (log_val_score (logs st)) (Z.to_nat (best_epoch (best st)))
      = Some (best_val_score (best st)) /\
      Forall (fun v => v < best_val_score (best st))%Q
        (firstn (Z.to_nat (best_epoch (best st)))
           (log_val_score (logs st)))).
Proof.
  intros H k.
  destruct (main_loop_kept float_repr E _ _ _ _ H)
    as [(L1 & L2 & L3 & L4 & Hmax & Hnone & Hsome) _].
  repeat (split; [assumption |]).
  intros weights Hw.
  destruct Hsome as (Hr & Hnth & Hfirst); [congruence |].
  split; [lia |]. now split.
Qed.

(** Two epochs with the same validation score 2/3, under a [torch.cat]
    that accepts the empty list: the snapshot is the one of epoch 0. *)
Lemma checkpoint_is_earliest_best_witness :
  exists st w1,
    main_loop Toy.repr Toy.lenient (Toy.cmd 2 (3 # 10000) "") Toy.w0
    = (Return st, w1) /\
    log_val_score (logs st) = [2 # 3; 2 # 3]%Q /\
    best_epoch (best st) = 0 /\
    length (log_val_score (logs st)) = 2%nat.
Proof.
  eassert (H : main_loop Toy.repr Toy.lenient (Toy.cmd 2 (3 # 10000) "")
                 Toy.w0 = (Return _, _)) by (vm_compute; reflexivity).
  eexists _, _. split; [exact H |]. split; [reflexivity |].
  split; [reflexivity |].
  exact (proj1 (proj2 (checkpoint_is_earliest_best _ _ _ _ _ _ H))).
Defined.

(** X12.  When the epoch loop of [main] has returned, the cosine
    scheduler has been stepped once for every epoch index from the warmup
    count on, so never when the epoch count does not exceed the warmup
    count; [memory_usage] holds the sample of epoch 1 if that epoch ran
    and the parsed value otherwise; [total_params] holds the parameter
    count; and no other argument has changed since [load_args]. *)
Theorem scheduler_and_memory
    {state_dict optim batch : Type} (float_repr : Q -> string)
    (E : framework state_dict optim batch) (parsed : options) (w : world)
    (st : run_state state_dict optim batch) (w1 : world) :
  main_loop float_repr E parsed w = (Return st, w1) ->
  let a := loaded float_repr E parsed in
  last_epoch st
  = Z.of_nat (length (filter (fun e => warmup parsed <=? e)
                        (range (epochs parsed)))) /\
  (epochs parsed <= warmup parsed -> last_epoch st = 0) /\
  memory_usage (opts (args st))
  = (if 2 <=? epochs parsed
     then print_gpu_utilization E (device_id parsed)
     else memory_usage parsed) /\
  total_params (opts (args st))
  = count_parameters E (GraphTransformer E a) /\
  set_memory_usage (memory_usage parsed)
    (set_total_params (total_params parsed) (opts (args st)))
  = opts a /\
  use_cuda (args st) = use_cuda a /\
  batch_norm (args st) = batch_norm a /\
  save_logs (args st) = save_logs a.
Proof.
  intros H a.
  destruct (main_loop_kept float_repr E _ _ _ _ H) as [_ (Ha & Hl & _)].
  fold (range (epochs parsed)) in Hl. rewrite Ha. cbn [opts use_cuda
                                                       batch_norm save_logs].
  split; [exact Hl |]. split; [| split; [| split; [| split]]].
  - intros He. rewrite Hl, filter_none; [reflexivity |].
    intros e Hin. unfold range in Hin. apply in_map_iff in Hin.
    destruct Hin as (i & <- & Hi). apply in_seq in Hi.
    apply Z.leb_gt. lia.
  - unfold options_after. cbv zeta.
    assert (Hk : (2 <=? Z.to_nat (epochs parsed))%nat = (2 <=? epochs parsed)).
    { destruct (Z.leb_spec 2 (epochs parsed)).
      - apply Nat.leb_le. lia.
      - apply Nat.leb_gt. lia. }
    rewrite Hk. destruct (2 <=? epochs parsed); [reflexivity |].
    cbn. now destruct (String.eqb _ _).
  - unfold options_after. cbv zeta.
    now destruct (2 <=? Z.to_nat (epochs parsed))%nat.
  - unfold options_after, a. cbv zeta. cbn [opts loaded].
    destruct (2 <=? Z.to_nat (epochs parsed))%nat;
      destruct (String.eqb _ _); now destruct parsed.
  - now repeat split.
Qed.

(** Two epochs of a ten-epoch warmup: the scheduler is never stepped and
    the memory sample of epoch 1 is stored. *)
Lemma scheduler_and_memory_witness :
  exists st w1,
    main_loop Toy.repr Toy.lenient (Toy.cmd 2 (3 # 10000) "") Toy.w0
    = (Return st, w1) /\
    last_epoch st = 0 /\
    memory_usage (opts (args st))
    = print_gpu_utilization Toy.lenient 0.
Proof.
  eassert (H : main_loop Toy.repr Toy.lenient (Toy.cmd 2 (3 # 10000) "")
                 Toy.w0 = (Return _, _)) by (vm_compute; reflexivity).
  destruct (scheduler_and_memory _ _ _ _ _ _ H) as (_ & Hz & Hm & _).
  eexists _, _. split; [exact H |]. split.
  - apply Hz. discriminate.
  - exact Hm.
Defined.

(** X13.  A call of [main] with an output directory that returns has
    written, as its last three actions and in this order, [logs.csv],
    [results.csv] and [model.pth] under the derived output path, and no
    other file: the log has one row per epoch, and the test score, the
    test loss and the best validation loss of [results.csv] are the ones
    [main] returns. *)
Theorem completed_run_persists
    {state_dict optim batch : Type} (float_repr : Q -> string)
    (E : framework state_dict optim batch) (parsed : options) (w : world)
    (r : outcome) (w' : world) :
  main float_repr E parsed w = (Return r, w') ->
  outdir parsed <> "" ->
  let d := derived_outdir float_repr parsed in
  exists tr l res,
    trace w'
    = (tr ++ [EvLogsCsv (d ++ "/logs.csv") l;
              EvResultsCsv (d ++ "/results.csv") res;
              EvTorchSave (d ++ "/model.pth")])%list /\
    filter is_artifact tr = filter is_artifact (trace w) /\
    length (log_val_score l) = Z.to_nat (epochs parsed) /\
    res_test_score res = out_test_score r /\
    res_test_loss res = out_test_loss r /\
    res_val_loss res = out_val r.
Proof.
  intros H Hne d. unfold main in H. bound H as st w1 Hloop.
  destruct (main_loop_kept float_repr E _ _ _ _ Hloop)
    as [(_ & L2 & _) (Ha & _)].
  assert (Hi : inner is_artifact) by now repeat split.
  pose proof (silent_run _ _ _ _ _
                (silent_main_loop float_repr E is_artifact parsed Hi
                   (fun _ => eq_refl)) Hloop) as Hq1.
  unfold main_finish in H.
  bound H as now1 w2 H1. injection H1 as _ <-.
  bound H as now2 w3 H2. injection H2 as _ <-.
  bound H as weights w4 H3.
  assert (Hw4 : trace w4 = trace w1).
  { destruct (best_weights (best st)); [| discriminate].
    now injection H3 as _ <-. }
  bound H as u w5 H4. injection H4 as _ <-.
  bound H as [ts tl] w6 H5.
  pose proof (silent_run _ _ _ _ _
                (silent_eval_epoch E is_artifact weights (test_ld st)
                   (use_cuda (args st)) "Test" eq_refl) H5) as Hq2.
  bound H as u' w7 H6. injection H as <- <-.
  unfold persist in H6. rewrite Ha in H6. cbn [save_logs opts] in H6.
  apply String.eqb_neq in Hne. rewrite Hne in H6. cbn [negb] in H6.
  assert (Hd : outdir (options_after float_repr E parsed
                         (Z.to_nat (epochs parsed))) = d).
  { unfold options_after. cbv zeta. cbn [opts loaded]. rewrite Hne.
    now destruct (2 <=? Z.to_nat (epochs parsed))%nat. }
  rewrite Hd in H6.
  unfold bind, emit in H6. injection H6 as _ <-. cbn [trace].
  eexists (trace w6), _, _. split.
  - rewrite <- !app_assoc. reflexivity.
  - split.
    + rewrite Hq2. cbn [trace]. rewrite filter_app. cbn [filter is_artifact].
      rewrite app_nil_r, Hw4. exact Hq1.
    + split; [exact L2 |]. now repeat split.
Qed.

(** Two epochs with [--outdir out] under a [torch.cat] that accepts the
    empty list: three files, the log with two rows. *)
Lemma completed_run_persists_witness :
  exists r w',
    main Toy.repr Toy.lenient (Toy.cmd 2 (3 # 10000) "out") Toy.w0
    = (Return r, w') /\
    length (filter is_artifact (trace w')) = 3%nat.
Proof.
  eassert (H : main Toy.repr Toy.lenient (Toy.cmd 2 (3 # 10000) "out")
                 Toy.w0 = (Return _, _)) by (vm_compute; reflexivity).
  eexists _, _. split; [exact H |].
  destruct (completed_run_persists _ _ _ _ _ _ H)
    as (tr & l & res & Ht & Hq & _); [discriminate |].
  rewrite Ht, filter_app, Hq. reflexivity.
Defined.



Section SeedFacts.

Context {state_dict optim batch : Type}.
Variable float_repr : Q -> string.
Variable E : framework state_dict optim batch.

Lemma main_seed_trace parsed w :
  filter is_seed (trace (snd (main float_repr E parsed w)))
  = (filter is_seed (trace w) ++ [EvSeed (seed parsed)])%list.
Proof.
  unfold main, bind.
  pose proof (main_loop_seeds float_repr E parsed w) as Hs.
  destruct (main_loop float_repr E parsed w) as [[st | e] w1];
    cbn [snd] in *; [| exact Hs].
  rewrite silent_main_finish; [exact Hs | now repeat split |].
  right. now intros [].
Qed.

Lemma runs_seed_trace parsed ids :
  forall acc w,
    exists n,
      (n <= length ids)%nat /\
      filter is_seed (trace (snd (runs float_repr E parsed ids acc w)))
      = (filter is_seed (trace w) ++ repeat (EvSeed (seed parsed)) n)%list /\
      (ids <> [] -> (1 <= n)%nat) /\
      (forall r, fst (runs float_repr E parsed ids acc w) = Return r ->
                 n = length ids).
Proof.
  induction ids as [| run_id rest IH]; intros acc w.
  - exists 0%nat. simpl. rewrite app_nil_r. repeat split; try easy.
  - cbn [runs]. unfold bind.
    pose proof (main_seed_trace parsed w) as Hs.
    destruct (main float_repr E parsed w) as [[r | e] w1]; cbn [snd] in Hs.
    + destruct r as [[[[ts tl] v] tt] av].
      match goal with
      | |- context [runs float_repr E parsed rest ?acc' w1] =>
          destruct (IH acc' w1) as (n & Hn & Hr & _ & Hret)
      end.
      exists (S n). split; [simpl; lia |]. split; [| split].
      * rewrite Hr, Hs, <- app_assoc. reflexivity.
      * intros _. lia.
      * intros r Hf. simpl. f_equal. now apply (Hret r).
    + exists 1%nat. cbn [fst snd]. split; [simpl; lia |].
      split; [exact Hs |]. split; [intros _; lia | discriminate].
Qed.

End SeedFacts.

(** X15.  Every run of the ten-run block is seeded with the same value,
    the parsed [--seed]: whatever its outcome, the block has called
    [seed_everything] between one and ten times, always with that seed,
    and ten times when it returns. *)
Theorem runs_share_the_seed
    {state_dict optim batch : Type} (float_repr : Q -> string)
    (E : framework state_dict optim batch) (parsed : options) (w : world) :
  exists n,
    (1 <= n <= 10)%nat /\
    filter is_seed (trace (snd (script float_repr E parsed w)))
    = (filter is_seed (trace w) ++ repeat (EvSeed (seed parsed)) n)%list /\
    (forall r, fst (script float_repr E parsed w) = Return r -> n = 10%nat).
Proof.
  destruct (runs_seed_trace float_repr E parsed (range 10) empty_tally w)
    as (n & Hn & Hr & Hpos & Hret).
  exists n. split; [split; [apply Hpos; discriminate | exact Hn] |].
  assert (Hrun : script float_repr E parsed w
                 = match runs float_repr E parsed (range 10) empty_tally w with
                   | (Return acc, w1) =>
                       (Return tt,
                        snd (emit (EvResultsToFile (loaded float_repr E parsed)
                                     (statistics E acc))
                               (snd (load_args float_repr E parsed w1))))
                   | (Raise e, w1) => (Raise e, w1)
                   end).
  { unfold script, bind at 1.
    destruct (runs float_repr E parsed (range 10) empty_tally w)
      as [[acc | e] w1]; [| reflexivity].
    rewrite (bind_Return _ _ _ _ _ (load_args_run float_repr E parsed w1)).
    now rewrite load_args_world. }
  rewrite Hrun.
  destruct (runs float_repr E parsed (range 10) empty_tally w)
    as [[acc | e] w1]; cbn [fst snd] in *.
  - cbn [emit snd trace]. rewrite filter_app.
    cbn [filter is_seed]. rewrite app_nil_r.
    rewrite (silent_load_args float_repr E is_seed parsed) by reflexivity.
    split; [exact Hr | intros _ _; now apply (Hret acc)].
  - split; [exact Hr | discriminate].
Qed.
